(** * email-service: retry executor and error classification

    A shallow embedding of [src/utils/retry.ts] (class [RetryableOperation])
    and [src/utils/errors.ts] (the [EmailError] family, [isRetryableError],
    [wrapError]), together with [categorizeSmtpError] of
    [src/transport/nodemailerTransport.ts].

    Modelling conventions.
    - JavaScript strings are [string], a sequence of characters.
      [toLowerCase] folds the letters A to Z, which is what
      [String.prototype.toLowerCase] does to a string of ASCII
      characters.  Outside ASCII only U+212A (to k) and U+0130 (to i and
      a combining dot) lower-case to ASCII letters, so a search for a
      keyword that has no k in it, and no i at its end, gives the same
      answer on every string; a statement that needs more says
      [isAscii].
    - JavaScript numbers: integers are [VNumber], the other numbers
      [VDecimal], [VNaN] and [VInfinity], and [String] prints them as
      [Number::toString] does.
    - Delays.  The executor ([execute], [Retry.calculateDelay]) computes
      the delay in exact rational arithmetic; what is proved of the
      delays it sleeps either holds whether or not the operations round,
      or is stated for the policies on which binary64 does not round.
      [Binary64.calculateDelay] is the same function with every
      operation rounded to binary64 ([round64]); the numeric bounds are
      proved of it.  [Math.pow] is a parameter there, as the language
      leaves its result to the implementation.  Attempt counters and the
      millisecond delays handed to the timer are integers ([Z]).
    - Records used as string-keyed maps ([Record<string, any>]) are
      [gmap string JsValue]; object spread is the left-biased union.
    - [async]/[await] is sequential here: an operation is a state
      transformer on a world [W] that either resolves or rejects.  Logging,
      sleeping and operation calls are recorded in a trace. *)

From Stdlib Require Import ZArith QArith Qround Qminmax Qpower Qabs Lia Lqa.
From Stdlib Require Import String Ascii List DecimalString.
From stdpp Require Import base option gmap strings.
Import ListNotations.

#[local] Set Warnings "-register-all".
#[local] Open Scope string_scope.
#[local] Open Scope list_scope.

(** ** Values that can be thrown, stored in a context, or logged *)

Inductive ErrorClass : Type :=
| SMTPConfigurationError
| SMTPConnectionError
| SMTPAuthenticationError
| EmailValidationError
| TemplateNotFoundError
| TemplateRenderError
| EmailSendError
| RateLimitError
| AttachmentError.

(** [VError] is an instance of [Error] that is not an [EmailError];
    [VEmailError] is an instance of one of the concrete subclasses, with
    the constructor arguments [message], [cause] ([VUndefined] when
    omitted) and [context] ([None] when omitted).

    Numbers.  [VNumber n] is the integer [n]; it is a JavaScript number
    as it stands when [|n| <= 2^53].  Every other finite number is a
    [VDecimal]: its sign, and the digits [s] and the exponent [n] from
    which [Number::toString] prints it, that is the shortest decimal
    [0.s * 10^n] that reads back as the number ([0.5] has digits 5 and
    exponent 0, [1e21] digits 1 and exponent 22, [2^64] digits
    18446744073709552 and exponent 20).  [VNaN] and [VInfinity] are the
    remaining numbers.  A [VObject] is an ordinary object with its own
    data properties, its prototype [Object.prototype].  Functions,
    symbols and bigints are not values of this model. *)
Inductive JsValue : Type :=
| VUndefined
| VNull
| VBoolean (b : bool)
| VNumber (n : Z)
| VString (s : string)
| VArray (items : list JsValue)
| VObject (props : gmap string JsValue)
| VError (message : string)
| VEmailError (cls : ErrorClass) (message : string) (cause : JsValue)
              (context : option (gmap string JsValue))
| VDecimal (negative : bool) (digits : positive) (exponent : Z)
| VNaN
| VInfinity (negative : bool).

(** ** JavaScript strings *)

Module Js.

Definition isUpper (c : ascii) : bool :=
  (65 <=? nat_of_ascii c)%nat && (nat_of_ascii c <=? 90)%nat.

Definition lowerChar (c : ascii) : ascii :=
  if isUpper c then ascii_of_nat (nat_of_ascii c + 32) else c.

(** [String.prototype.toLowerCase]: the letters A to Z are folded, every
    other character is kept.  This is the function itself on strings of
    ASCII characters. *)
Fixpoint toLowerCase (s : string) : string :=
  match s with
  | EmptyString => EmptyString
  | String c rest => String (lowerChar c) (toLowerCase rest)
  end.

(** [String.prototype.startsWith]. *)
Fixpoint startsWith (s sub : string) : bool :=
  match sub, s with
  | EmptyString, _ => true
  | String _ _, EmptyString => false
  | String a sub', String b s' => Ascii.eqb a b && startsWith s' sub'
  end.

(** [String.prototype.includes]: [sub] occurs at some offset of [s]. *)
Fixpoint includes (s sub : string) : bool :=
  startsWith s sub ||
  match s with
  | EmptyString => false
  | String _ rest => includes rest sub
  end.

(** The decimal digits of a natural number. *)
Definition digitsOf (n : Z) : string :=
  NilZero.string_of_uint (N.to_uint (Z.to_N n)).

(** [n] times the digit 0. *)
Fixpoint zeros (n : nat) : string :=
  match n with
  | O => EmptyString
  | S n => String "0" (zeros n)
  end.

(** A string of digits without its trailing zeros. *)
Fixpoint stripZeros (s : string) : string :=
  match s with
  | EmptyString => EmptyString
  | String c rest =>
      match stripZeros rest with
      | EmptyString =>
          if Ascii.eqb c "0" then EmptyString else String c EmptyString
      | kept => String c kept
      end
  end.

(** [Number::toString] (radix 10) of a positive finite number, from its
    digits [s] ([k] of them) and its exponent [n], the number being
    [s * 10^(n-k)]: plain digits when [-5 <= n <= 21], exponent
    notation otherwise. *)
Definition formatDecimal (s : string) (n : Z) : string :=
  let k := Z.of_nat (String.length s) in
  if (-5 <=? n)%Z && (n <=? 21)%Z then
    if (k <=? n)%Z then s +:+ zeros (Z.to_nat (n - k))
    else if (0 <? n)%Z then
      substring 0 (Z.to_nat n) s +:+ "."
        +:+ substring (Z.to_nat n) (Z.to_nat (k - n)) s
    else "0." +:+ zeros (Z.to_nat (- n)) +:+ s
  else
    let e := (n - 1)%Z in
    let exponent :=
      (if (0 <=? e)%Z then "+" else "-") +:+ digitsOf (Z.abs e) in
    match s with
    | String d EmptyString => String d EmptyString +:+ "e" +:+ exponent
    | String d rest =>
        String d EmptyString +:+ "." +:+ rest +:+ "e" +:+ exponent
    | EmptyString => EmptyString
    end.

(** [Number::toString] of an integer-valued number, as in a template
    literal: all its digits below [10^21], exponent notation from there
    on. *)
Definition numberToString (n : Z) : string :=
  if (n =? 0)%Z then "0"
  else
    let digits := digitsOf (Z.abs n) in
    (if (n <? 0)%Z then "-" else EmptyString)
      +:+ formatDecimal (stripZeros digits)
                        (Z.of_nat (String.length digits)).

(** [this.name = this.constructor.name]. *)
Definition className (c : ErrorClass) : string :=
  match c with
  | SMTPConfigurationError => "SMTPConfigurationError"
  | SMTPConnectionError => "SMTPConnectionError"
  | SMTPAuthenticationError => "SMTPAuthenticationError"
  | EmailValidationError => "EmailValidationError"
  | TemplateNotFoundError => "TemplateNotFoundError"
  | TemplateRenderError => "TemplateRenderError"
  | EmailSendError => "EmailSendError"
  | RateLimitError => "RateLimitError"
  | AttachmentError => "AttachmentError"
  end.

(** [String(v)]: the abstract operation ToString.  Arrays join their
    elements with commas, [null] and [undefined] elements printing as the
    empty string; plain objects print as [[object Object]]; errors print
    through [Error.prototype.toString].  On an object that has an own
    property [toString], which is not callable in this model, String()
    throws a [TypeError] instead of returning: see [stringifiable]. *)
Fixpoint String (v : JsValue) : string :=
  match v with
  | VUndefined => "undefined"
  | VNull => "null"
  | VBoolean true => "true"
  | VBoolean false => "false"
  | VNumber n => numberToString n
  | VString s => s
  | VArray items =>
      let element (x : JsValue) : string :=
        match x with
        | VUndefined | VNull => EmptyString
        | _ => String x
        end in
      (fix join (xs : list JsValue) : string :=
         match xs with
         | [] => EmptyString
         | [x] => element x
         | x :: rest => element x +:+ "," +:+ join rest
         end) items
  | VObject _ => "[object Object]"
  | VError m => if String.eqb m EmptyString then "Error" else "Error: " +:+ m
  | VEmailError c m _ _ =>
      if String.eqb m EmptyString then className c
      else className c +:+ ": " +:+ m
  | VDecimal negative s n =>
      (if negative then "-" else EmptyString)
        +:+ formatDecimal (digitsOf (Zpos s)) n
  | VNaN => "NaN"
  | VInfinity negative => if negative then "-Infinity" else "Infinity"
  end.

(** The values on which String() returns a string and [String] above is
    that string: integers up to [2^53] in size (a larger number is a
    [VDecimal]), objects without an own property [toString], and arrays
    of such values. *)
Fixpoint stringifiable (v : JsValue) : bool :=
  match v with
  | VNumber n => (Z.abs n <=? 2 ^ 53)%Z
  | VObject props =>
      match props !! "toString" with Some _ => false | None => true end
  | VArray items =>
      (fix all (xs : list JsValue) : bool :=
         match xs with
         | [] => true
         | x :: rest => stringifiable x && all rest
         end) items
  | _ => true
  end.

End Js.

Module Errors.

(** The [readonly retryable] field of each subclass. *)
Definition retryable (c : ErrorClass) : bool :=
  match c with
  | SMTPConfigurationError => false
  | SMTPConnectionError => true
  | SMTPAuthenticationError => false
  | EmailValidationError => false
  | TemplateNotFoundError => false
  | TemplateRenderError => false
  | EmailSendError => true
  | RateLimitError => true
  | AttachmentError => false
  end.

(** The [readonly code] field of each subclass. *)
Definition code (c : ErrorClass) : string :=
  match c with
  | SMTPConfigurationError => "SMTP_CONFIG_ERROR"
  | SMTPConnectionError => "SMTP_CONNECTION_ERROR"
  | SMTPAuthenticationError => "SMTP_AUTH_ERROR"
  | EmailValidationError => "EMAIL_VALIDATION_ERROR"
  | TemplateNotFoundError => "TEMPLATE_NOT_FOUND"
  | TemplateRenderError => "TEMPLATE_RENDER_ERROR"
  | EmailSendError => "EMAIL_SEND_ERROR"
  | RateLimitError => "RATE_LIMIT_ERROR"
  | AttachmentError => "ATTACHMENT_ERROR"
  end.

(** [error instanceof Error] *)
Definition instanceofError (v : JsValue) : bool :=
  match v with
  | VError _ | VEmailError _ _ _ _ => true
  | _ => false
  end.

(** [error instanceof EmailError] *)
Definition instanceofEmailError (v : JsValue) : bool :=
  match v with
  | VEmailError _ _ _ _ => true
  | _ => false
  end.

(** [typeof v] *)
Definition typeof (v : JsValue) : string :=
  match v with
  | VUndefined => "undefined"
  | VBoolean _ => "boolean"
  | VNumber _ | VDecimal _ _ _ | VNaN | VInfinity _ => "number"
  | VString _ => "string"
  | VNull | VArray _ | VObject _ | VError _ | VEmailError _ _ _ _ => "object"
  end.

(** Truthiness, as tested by [!error]. *)
Definition truthy (v : JsValue) : bool :=
  match v with
  | VUndefined | VNull | VNaN => false
  | VBoolean b => b
  | VNumber n => negb (n =? 0)%Z
  | VString s => negb (String.eqb s EmptyString)
  | _ => true
  end.

(** [v.message]: the property read, [None] when the value has no such
    property (the read yields [undefined]). *)
Definition message (v : JsValue) : option JsValue :=
  match v with
  | VObject props => props !! "message"
  | VError m | VEmailError _ m _ _ => Some (VString m)
  | _ => None
  end.

(** ["message" in v], for a value whose [typeof] is ["object"]. *)
Definition hasMessage (v : JsValue) : bool :=
  match message v with Some _ => true | None => false end.

(** [error.context] of an error instance. *)
Definition context (v : JsValue) : option (gmap string JsValue) :=
  match v with
  | VEmailError _ _ _ ctx => ctx
  | _ => None
  end.

(** [error.cause] of an error instance. *)
Definition cause (v : JsValue) : JsValue :=
  match v with
  | VEmailError _ _ c _ => c
  | _ => VUndefined
  end.

(** Known transient nodemailer errors. *)
Definition transientMessages : list string :=
  ["ETIMEDOUT"; "ECONNRESET"; "ENOTFOUND"; "ECONNREFUSED"; "timeout";
   "network"].

Definition isRetryableError (error : JsValue) : bool :=
  match error with
  | VEmailError c _ _ _ => retryable c
  | _ =>
      if negb (truthy error) || negb (String.eqb (typeof error) "object")
         || negb (hasMessage error)
      then false
      else
        match message error with
        | Some (VString message) =>
            existsb
              (fun msg =>
                 Js.includes (Js.toLowerCase message) (Js.toLowerCase msg))
              transientMessages
        | _ => false
        end
  end.

Definition wrapError (error : JsValue)
           (context : option (gmap string JsValue)) : JsValue :=
  match error with
  | VEmailError _ _ _ _ => error
  | VError msg =>
      let message := Js.toLowerCase msg in
      if Js.includes message "auth" then
        VEmailError SMTPAuthenticationError
                    ("Authentication failed: " +:+ msg) error context
      else if Js.includes message "connect" then
        VEmailError SMTPConnectionError
                    ("Connection failed: " +:+ msg) error context
      else
        VEmailError EmailSendError
                    ("Email operation failed: " +:+ msg) error context
  | _ =>
      VEmailError EmailSendError
                  ("Unknown error occurred: " +:+ Js.String error)
                  VUndefined context
  end.

(** [NodemailerTransport.categorizeSmtpError], the transport's own
    classifier, which tests more keywords than [wrapError]. *)
Definition categorizeSmtpError (error : JsValue)
           (context : option (gmap string JsValue)) : JsValue :=
  if negb (instanceofError error) then
    VEmailError EmailSendError
                ("Unknown SMTP error: " +:+ Js.String error) VUndefined context
  else
    let msg := match message error with
               | Some (VString m) => m
               | _ => EmptyString
               end in
    let message := Js.toLowerCase msg in
    if Js.includes message "auth" || Js.includes message "login"
       || Js.includes message "password" then
      VEmailError SMTPAuthenticationError
                  ("SMTP authentication failed: " +:+ msg) error context
    else if Js.includes message "connect" || Js.includes message "timeout"
            || Js.includes message "enotfound" then
      VEmailError SMTPConnectionError
                  ("SMTP connection failed: " +:+ msg) error context
    else
      VEmailError EmailSendError
                  ("SMTP send failed: " +:+ msg) error context.

End Errors.

(** ** The retry executor *)

Module Retry.

Import Errors.

Record RetryConfig : Type := {
  maxAttempts : Z;
  initialDelay : Q;
  maxDelay : Q;
  backoffMultiplier : Q;
  jitter : bool
}.

Definition DEFAULT_RETRY_CONFIG : RetryConfig :=
  {| maxAttempts := 3; initialDelay := 1000; maxDelay := 30000;
     backoffMultiplier := 2; jitter := true |}.

Module RetryConfigs.
Definition smtp : RetryConfig :=
  {| maxAttempts := 3; initialDelay := 2000; maxDelay := 10000;
     backoffMultiplier := 2; jitter := true |}.
Definition template : RetryConfig :=
  {| maxAttempts := 2; initialDelay := 500; maxDelay := 2000;
     backoffMultiplier := 2; jitter := false |}.
Definition connection : RetryConfig :=
  {| maxAttempts := 5; initialDelay := 1000; maxDelay := 30000;
     backoffMultiplier := 3 # 2; jitter := true |}.
End RetryConfigs.

Record RetryState : Type := {
  attempt : Z;
  totalDelay : Z;
  errors : list JsValue
}.

(** How the promise returned by one call of the operation settles. *)
Inductive Outcome (T : Type) : Type :=
  | Resolved (value : T)
  | Rejected (reason : JsValue).
Arguments Resolved {T} value.
Arguments Rejected {T} reason.

Inductive LogLevel : Type := debug | info | warn.

(** What the executor does to the outside: it calls the operation, writes
    to the logger, and waits on a timer. *)
Inductive Event : Type :=
  | Called
  | Logged (level : LogLevel) (msg : string) (fields : gmap string JsValue)
         (error : JsValue)
  | Slept (ms : Z).

(** The environment one execution runs in: the world the operation acts
    on, how many times [Math.random] was called, and the events so far. *)
Record Env (W : Type) : Type := {
  world : W;
  draws : nat;
  trace : list Event
}.
Arguments world {W} e.
Arguments draws {W} e.
Arguments trace {W} e.

(** How [execute] leaves: by [return result] or a [throw] inside the loop
    body, or by the [throw] that follows the loop. *)
Inductive Exit (T : Type) : Type :=
  | Returned (result : T)
  | Thrown (error : JsValue)
  | ThrownAfterLoop (error : JsValue).
Arguments Returned {T} result.
Arguments Thrown {T} error.
Arguments ThrownAfterLoop {T} error.

(** [Math.round]: the nearest integer, halves going up. *)
Definition Math_round (x : Q) : Z := Qfloor (x + (1 # 2)).

(** Object spread [{ ...target, ...source }] of an optional record. *)
Definition spread (target : gmap string JsValue)
           (source : option (gmap string JsValue)) : gmap string JsValue :=
  match source with
  | Some fields => fields ∪ target
  | None => target
  end.

Section RetryableOperation.

Context {T W : Type}.
(** [this.config] *)
Variable config : RetryConfig.
(** The results of the successive calls of [Math.random]. *)
Variable random : nat -> Q.

(** Computations that act on the environment. *)
Definition M (A : Type) : Type := Env W -> A * Env W.
Definition ret {A} (a : A) : M A := fun env => (a, env).
Definition bind {A B} (m : M A) (k : A -> M B) : M B :=
  fun env => let '(a, env') := m env in k a env'.
Notation "'let*' x ':=' m 'in' k" := (bind m (fun x => k))
  (at level 10, x name, m at level 100, k at level 200).
Notation "m '>>' k" := (bind m (fun _ => k))
  (at level 90, right associativity).

Definition emit (e : Event) : M unit :=
  fun env =>
    (tt, {| world := world env; draws := draws env;
            trace := trace env ++ [e] |}).

Definition Math_random : M Q :=
  fun env =>
    (random (draws env),
     {| world := world env; draws := S (draws env);
        trace := trace env |}).

Definition call (operation : W -> Outcome T * W) : M (Outcome T) :=
  fun env =>
    let '(r, w) := operation (world env) in
    (r, {| world := w; draws := draws env;
           trace := trace env ++ [Called] |}).

Definition sleep (ms : Z) : M unit := emit (Slept ms).

Definition logger_debug msg fields : M unit :=
  emit (Logged debug msg fields VUndefined).
Definition logger_info msg fields : M unit :=
  emit (Logged info msg fields VUndefined).
Definition logger_warn msg fields error : M unit :=
  emit (Logged warn msg fields error).

Definition calculateDelay (attempt : Z) : M Z :=
  (* Exponential backoff: initialDelay * (backoffMultiplier ^ (attempt - 1)) *)
  let delay :=
    (initialDelay config * Qpower (backoffMultiplier config) (attempt - 1))%Q in
  (* Cap at maxDelay *)
  let delay := Qmin delay (maxDelay config) in
  (* Add jitter to prevent thundering herd *)
  let* delay := (if jitter config then
              let jitterRange := (delay * (1 # 10))%Q in
              let* r := Math_random in
              let jitter := ((r - (1 # 2)) * 2 * jitterRange)%Q in
              ret (delay + jitter)%Q
            else ret delay) in
  ret (Z.max 0 (Math_round delay)).

(** [state.errors.map((e) => e.message)] *)
Definition allErrors (errors : list JsValue) : JsValue :=
  VArray (map (fun e => default VUndefined (message e)) errors).

(** The error thrown when a classified failure ends the retries. *)
Definition retryError (state : RetryState) (error : JsValue)
           (context : option (gmap string JsValue)) : JsValue :=
  match error with
  | VEmailError ErrorClass error_message _ error_context =>
      VEmailError ErrorClass
        ("Operation failed after " +:+ Js.numberToString (attempt state)
           +:+ " attempts: " +:+ error_message)
        error
        (Some (spread
                 (spread
                    (<["attempts" := VNumber (attempt state)]>
                       (<["allErrors" := allErrors (errors state)]> ∅))
                    context)
                 error_context))
  | _ => error
  end.

Section Execute.

Variable operation : W -> Outcome T * W.
Variable context : option (gmap string JsValue).

(** One pass through the body of the [while] loop of [execute]: it
    either leaves [execute] ([inl], by [return] or [throw]) or falls
    through to the next test of the loop condition ([inr]). *)
Definition loopBody (state : RetryState) (env : Env W)
  : (Exit T * RetryState * Env W) + (RetryState * Env W) :=
  let state :=
    {| attempt := attempt state + 1;
       totalDelay := totalDelay state;
       errors := errors state |} in
  let '(settled, env) :=
    (logger_debug "Executing operation"
       (spread
          (<["attempt" := VNumber (attempt state)]>
             (<["maxAttempts" := VNumber (maxAttempts config)]> ∅))
          context) >>
     call operation) env in
  match settled with
  | Resolved result =>
      let '(_, env) :=
        (if (1 <? attempt state)%Z then
           logger_info "Operation succeeded after retry"
             (spread
                (<["attempt" := VNumber (attempt state)]>
                   (<["totalDelay" := VNumber (totalDelay state)]> ∅))
                context)
         else ret tt) env in
      inl (Returned result, state, env)
  | Rejected error =>
      let wrappedError :=
        if instanceofError error then error
        else VError (Js.String error) in
      let state :=
        {| attempt := attempt state;
           totalDelay := totalDelay state;
           errors := errors state ++ [wrappedError] |} in
      let isLastAttempt :=
        (maxAttempts config <=? attempt state)%Z in
      let shouldRetry :=
        negb isLastAttempt && isRetryableError wrappedError in
      let '(_, env) :=
        logger_warn "Operation failed"
          (spread
             (<["attempt" := VNumber (attempt state)]>
                (<["maxAttempts" := VNumber (maxAttempts config)]>
                   (<["willRetry" := VBoolean shouldRetry]>
                      (<["error" :=
                           default VUndefined (message wrappedError)]>
                         ∅))))
             context)
          wrappedError env in
      if negb shouldRetry then
        (* Throw the most recent error with context about all
           attempts *)
        if instanceofEmailError error then
          inl (Thrown (retryError state error context), state, env)
        else inl (Thrown wrappedError, state, env)
      else
        (* Calculate delay for next attempt *)
        let '(delay, env) := calculateDelay (attempt state) env in
        let state :=
          {| attempt := attempt state;
             totalDelay := totalDelay state + delay;
             errors := errors state |} in
        let '(_, env) :=
          (logger_debug "Waiting before retry"
             (spread
                (<["delay" :=
                     VString (Js.numberToString delay +:+ "ms")]>
                   (<["nextAttempt" := VNumber (attempt state + 1)]> ∅))
                context) >>
           sleep delay) env in
        inr (state, env)
  end.

(** The [while] loop of [execute] followed by the trailing [throw];
    [None] when [fuel] tests of the loop condition do not finish it. *)
Fixpoint loop (fuel : nat) (state : RetryState) (env : Env W)
  : option (Exit T * RetryState * Env W) :=
  match fuel with
  | O => None
  | S fuel =>
      if (attempt state <? maxAttempts config)%Z then
        match loopBody state env with
        | inl exit => Some exit
        | inr (state, env) => loop fuel state env
        end
      else
        (* This should never be reached, but TypeScript needs it *)
        Some (ThrownAfterLoop (List.last (errors state) VUndefined),
              state, env)
  end.

Definition initialState : RetryState :=
  {| attempt := 0; totalDelay := 0; errors := [] |}.

Definition initialEnv (w : W) : Env W :=
  {| world := w; draws := 0; trace := [] |}.

(** [execute(operation, context)], started in world [w].  Every pass
    through the body raises [state.attempt] by one, so
    [maxAttempts + 1] tests of the condition are enough (see
    [execute_total]). *)
Definition execute (w : W) : option (Exit T * RetryState * Env W) :=
  loop (S (Z.to_nat (maxAttempts config))) initialState (initialEnv w).

End Execute.

End RetryableOperation.

(** How often the operation was called, and the delays waited, in a
    trace. *)
Definition invocations (tr : list Event) : nat :=
  length
    (List.filter (fun e => match e with Called => true | _ => false end) tr).

Definition sleeps (tr : list Event) : list Z :=
  flat_map (fun e => match e with Slept ms => [ms] | _ => [] end) tr.

End Retry.

Import Errors Retry.

(** ** Substrings and case-insensitive matching *)

Module Text.

(** [sub] occurs somewhere in [s]. *)
Definition occursIn (sub s : string) : Prop :=
  ∃ pre post, s = pre +:+ sub +:+ post.





End Text.

(** ** Runs of an operation *)

(** The [wrappedError] that the catch block of [execute] makes of a
    thrown value. *)
Definition toError (error : JsValue) : JsValue :=
  if instanceofError error then error else VError (Js.String error).

(** A failure after which [execute] retries when attempts remain: the
    retryability predicate holds of the error the failure is wrapped in.
    For an [Error] instance that is the failure itself. *)
Definition retryableFailure (e : JsValue) : Prop :=
  isRetryableError (toError e) = true.

(** The message under which a failure is listed in [allErrors]. *)
Definition failureMessage (e : JsValue) : string :=
  match e with
  | VError m | VEmailError _ m _ _ => m
  | _ => Js.String e
  end.

(** [Rejects operation w es w']: called again and again from world [w],
    the operation rejects with the values [es], in this order, and leaves
    the world [w']. *)
Inductive Rejects {T W : Type} (operation : W -> Outcome T * W)
  : W -> list JsValue -> W -> Prop :=
| Rejects_nil w : Rejects operation w [] w
| Rejects_cons w e w' es w'' :
    operation w = (Rejected e, w') ->
    Rejects operation w' es w'' ->
    Rejects operation w (e :: es) w''.

(** The delay after attempt [k] before jitter and rounding:
    [min(initialDelay * backoffMultiplier^(k-1), maxDelay)]. *)
Definition cappedDelay (config : RetryConfig) (k : Z) : Q :=
  Qmin (initialDelay config * Qpower (backoffMultiplier config) (k - 1))
       (maxDelay config).

(** [record?.[key]] on an optional record. *)
Definition getField (record : option (gmap string JsValue)) (key : string)
  : option JsValue :=
  record ≫= (λ fields, fields !! key).

#[local] Open Scope Q_scope.

(** ** Binary64 arithmetic *)

Module Binary64.

(** [floor(log2 q)] of a positive rational. *)
Definition ilog2 (q : Q) : Z :=
  let l := (Z.log2 (Qnum q) - Z.log2 (Zpos (Qden q)))%Z in
  if Qle_bool (2 ^ l) q then l else (l - 1)%Z.

(** The integer nearest to [x], the even one of two that are equally
    near. *)
Definition nearestEven (x : Q) : Z :=
  let f := Qfloor x in
  match Qcompare (x - inject_Z f) (1 # 2) with
  | Lt => f
  | Gt => (f + 1)%Z
  | Eq => if Z.even f then f else (f + 1)%Z
  end.

(** Rounding a real number to binary64, to nearest with ties to even:
    53 significant bits, the exponent of the last bit not below
    [-1074].  Overflow to Infinity is not part of this function, which
    is the rounding of the standard below the largest finite number. *)
Definition round64 (q : Q) : Q :=
  if Qeq_bool q 0 then 0
  else
    let a := Qabs q in
    let e := Z.max (ilog2 a - 52) (-1074) in
    (if Qle_bool 0 q then 1 else -1)
    * (inject_Z (nearestEven (a / 2 ^ e)) * 2 ^ e).


(** The unit roundoff of binary64 and half its smallest positive
    number. *)
Definition u : Q := 1 # 2 ^ 53.
Definition eta : Q := 1 # 2 ^ 1075.

(** [calculateDelay] with every operation rounded as the machine rounds
    it. *)
Section CalculateDelay.

Context {W : Type}.
(** [Math.pow], whose result the language leaves to the implementation
    ("an implementation-approximated value"). *)
Variable Math_pow : Q -> Z -> Q.
(** [this.config]: each of its numbers enters the arithmetic as the
    binary64 number nearest to it, which is the number itself when it is
    one. *)
Variable config : RetryConfig.
Variable random : nat -> Q.

Definition number (q : Q) : Q := round64 q.

(** The literal [0.1]. *)
Definition tenth : Q := round64 (1 # 10).

(** [delay] after [Math.min(delay, this.config.maxDelay)]. *)
Definition cappedDelay (attempt : Z) : Q :=
  Qmin (round64 (number (initialDelay config)
                 * Math_pow (number (backoffMultiplier config))
                            (attempt - 1)))
       (number (maxDelay config)).

Definition calculateDelay (attempt : Z) (env : Env W) : Z * Env W :=
  (* Exponential backoff: initialDelay * (backoffMultiplier ^ (attempt - 1)) *)
  let delay :=
    round64 (number (initialDelay config)
             * Math_pow (number (backoffMultiplier config)) (attempt - 1)) in
  (* Cap at maxDelay *)
  let delay := Qmin delay (number (maxDelay config)) in
  (* Add jitter to prevent thundering herd *)
  let '(delay, env) :=
    if jitter config then
      let jitterRange := round64 (delay * tenth) in
      let '(r, env) := Math_random random env in
      let jitter :=
        round64 (round64 (round64 (r - (1 # 2)) * 2) * jitterRange) in
      (round64 (delay + jitter), env)
    else (delay, env) in
  (Z.max 0 (Math_round delay), env).

End CalculateDelay.

(** A [Math.pow] that returns the power correctly rounded. *)
Definition roundedPower (base : Q) (exponent : Z) : Q :=
  round64 (base ^ exponent).

End Binary64.

#[local] Close Scope Q_scope.

(** ** Concrete operations and policies *)

Module Scenarios.

(** The world of these operations is the number of calls made so far. *)
Definition alwaysRejects (e : JsValue) : nat -> Outcome Z * nat :=
  fun calls => (Rejected e, S calls).

(** Rejects the first [n] calls with [e], then resolves with [v]. *)
Definition rejectsThenResolves (n : nat) (e : JsValue) (v : Z)
  : nat -> Outcome Z * nat :=
  fun calls =>
    if (calls <? n)%nat then (Rejected e, S calls) else (Resolved v, S calls).

(** [Math.random] returning 0 on every call. *)
Definition lowestDraw : nat -> Q := fun _ => 0%Q.

Definition timedOut : JsValue := VError "ETIMEDOUT".

Definition connectionDown : JsValue :=
  VEmailError SMTPConnectionError "down" VUndefined
              (Some {[ "host" := VString "smtp.example.com" ]}).


(** The policy of the first scenario of the specification. *)
Definition doubling : RetryConfig :=
  {| maxAttempts := 5; initialDelay := 100; maxDelay := 1000;
     backoffMultiplier := 2; jitter := false |}.

Definition sixMilliseconds : RetryConfig :=
  {| maxAttempts := 3; initialDelay := 6; maxDelay := 30000;
     backoffMultiplier := 2; jitter := true |}.

(** A policy capped at 4.0909090909090908 ms, just below 45/11. *)
Definition elevenths : RetryConfig :=
  {| maxAttempts := 3; initialDelay := 100;
     maxDelay := 40909090909090908 # 10000000000000000;
     backoffMultiplier := 2; jitter := true |}.

(** [Math.random] returning [1 - 2^-52] on every call. *)
Definition highestDraw : nat -> Q := fun _ => (1 - (1 # 2 ^ 52))%Q.

End Scenarios.

(** ** Observations on a finished execution *)

(** The sum of a list of delays. *)
Definition sumDelays (ds : list Z) : Z := fold_right Z.add 0%Z ds.

Definition sameLevel (a b : LogLevel) : bool :=
  match a, b with
  | debug, debug | info, info | warn, warn => true
  | _, _ => false
  end.

(** The lines written to the logger at a given level, in order. *)
Definition logged (level : LogLevel) (tr : list Event)
  : list (string * gmap string JsValue) :=
  flat_map
    (fun e =>
       match e with
       | Logged l msg fields _ =>
           if sameLevel l level then [(msg, fields)] else []
       | _ => []
       end) tr.

Section BodySteps.

Context {T W : Type}.
Variable config : RetryConfig.
Variable random : nat -> Q.
Variable operation : W -> Outcome T * W.
Variable context : option (gmap string JsValue).

(** What one pass through the loop body does, by the three ways it can
    go. *)
Inductive BodyStep (st : RetryState) (env : Env W)
  : (Exit T * RetryState * Env W) + (RetryState * Env W) -> Prop :=
| step_resolved v env' :
    operation (world env) = (Resolved v, world env') ->
    draws env' = draws env ->
    invocations (trace env') = S (invocations (trace env)) ->
    sleeps (trace env') = sleeps (trace env) ->
    logged info (trace env')
    = logged info (trace env)
      ++ (if (1 <? attempt st + 1)%Z
          then [("Operation succeeded after retry",
                 spread (<["attempt" := VNumber (attempt st + 1)]>
                           (<["totalDelay" := VNumber (totalDelay st)]> ∅))
                        context)]
          else []) ->
    length (logged warn (trace env')) = length (logged warn (trace env)) ->
    BodyStep st env
      (inl (Returned v,
            {| attempt := attempt st + 1; totalDelay := totalDelay st;
               errors := errors st |}, env'))
| step_gives_up e env' :
    operation (world env) = (Rejected e, world env') ->
    (maxAttempts config <= attempt st + 1)%Z
    ∨ isRetryableError (toError e) = false ->
    draws env' = draws env ->
    invocations (trace env') = S (invocations (trace env)) ->
    sleeps (trace env') = sleeps (trace env) ->
    logged info (trace env') = logged info (trace env) ->
    length (logged warn (trace env'))
    = S (length (logged warn (trace env))) ->
    let st' := {| attempt := attempt st + 1; totalDelay := totalDelay st;
                  errors := errors st ++ [toError e] |} in
    BodyStep st env
      (inl (Thrown (if instanceofEmailError e
                    then retryError st' e context else toError e),
            st', env'))
| step_retries e (env0 env' : Env W) :
    operation (world env) = (Rejected e, world env') ->
    (attempt st + 1 < maxAttempts config)%Z ->
    isRetryableError (toError e) = true ->
    draws env0 = draws env ->
    draws env' = (if jitter config then S (draws env) else draws env) ->
    invocations (trace env') = S (invocations (trace env)) ->
    let d := fst (calculateDelay config random (attempt st + 1) env0) in
    sleeps (trace env') = sleeps (trace env) ++ [d] ->
    logged info (trace env') = logged info (trace env) ->
    length (logged warn (trace env'))
    = S (length (logged warn (trace env))) ->
    BodyStep st env
      (inr ({| attempt := attempt st + 1; totalDelay := totalDelay st + d;
               errors := errors st ++ [toError e] |}, env')).

End BodySteps.

(** ** [withRetry] and the constructor of [RetryableOperation] *)

(** [Partial<RetryConfig>]: every field may be absent. *)
Module Partial.

Record RetryConfig : Type := {
  maxAttempts : option Z;
  initialDelay : option Q;
  maxDelay : option Q;
  backoffMultiplier : option Q;
  jitter : option bool
}.

(** The object [{}]. *)
Definition empty : RetryConfig :=
  {| maxAttempts := None; initialDelay := None; maxDelay := None;
     backoffMultiplier := None; jitter := None |}.

(** A complete [RetryConfig] passed where a partial one is expected. *)
Definition full (config : Retry.RetryConfig) : RetryConfig :=
  {| maxAttempts := Some (Retry.maxAttempts config);
     initialDelay := Some (Retry.initialDelay config);
     maxDelay := Some (Retry.maxDelay config);
     backoffMultiplier := Some (Retry.backoffMultiplier config);
     jitter := Some (Retry.jitter config) |}.

End Partial.

(** [new RetryableOperation(config)]:
    [this.config = { ...DEFAULT_RETRY_CONFIG, ...config }]. *)
Definition RetryableOperation_config (config : Partial.RetryConfig)
  : RetryConfig :=
  {| maxAttempts :=
       default (maxAttempts DEFAULT_RETRY_CONFIG) (Partial.maxAttempts config);
     initialDelay :=
       default (initialDelay DEFAULT_RETRY_CONFIG)
               (Partial.initialDelay config);
     maxDelay :=
       default (maxDelay DEFAULT_RETRY_CONFIG) (Partial.maxDelay config);
     backoffMultiplier :=
       default (backoffMultiplier DEFAULT_RETRY_CONFIG)
               (Partial.backoffMultiplier config);
     jitter := default (jitter DEFAULT_RETRY_CONFIG) (Partial.jitter config) |}.

(** [withRetry(operation, config, context)]; an omitted [config] is the
    constructor's default argument [{}]. *)
Definition withRetry {T W : Type} (random : nat -> Q)
           (operation : W -> Outcome T * W)
           (config : option Partial.RetryConfig)
           (context : option (gmap string JsValue)) (w : W)
  : option (Exit T * RetryState * Env W) :=
  execute (RetryableOperation_config (default Partial.empty config))
          random operation context w.

(** ** The SMTP transport ([NodemailerTransport]) *)

(** [MailOptions.to : string | string[]] *)
Inductive Recipients : Type :=
| OneRecipient (address : string)
| ManyRecipients (addresses : list string).

(** [Array.isArray(options.to) ? options.to : [options.to]] *)
Definition recipientList (to : Recipients) : JsValue :=
  match to with
  | OneRecipient address => VArray [VString address]
  | ManyRecipients addresses => VArray (map VString addresses)
  end.

(** [Array.isArray(options.to) ? options.to.length : 1] *)
Definition recipientCount (to : Recipients) : Z :=
  match to with
  | OneRecipient _ => 1
  | ManyRecipients addresses => Z.of_nat (length addresses)
  end.

Section NodemailerTransport.

Context {W : Type}.
Variable random : nat -> Q.
(** [this.config.retryConfig] *)
Variable retryConfig : option RetryConfig.
(** The [try] block of the operation passed to [withRetry] by [sendMail]:
    the debug line, [transporter.sendMail] and [EmailLogger.emailSent],
    acting on the world. *)
Variable trySend : W -> Outcome unit * W.
(** [this.logger.error(message, context, error)], acting on the world. *)
Variable logger_error : string -> gmap string JsValue -> JsValue -> W -> W.
Variable to : Recipients.
Variable subject : string.

(** The operation that [sendMail] hands to [withRetry]: the [try] block
    with its [catch] handler. *)
Definition sendMailOperation (w : W) : Outcome unit * W :=
  match trySend w with
  | (Resolved _, w') => (Resolved tt, w')
  | (Rejected error, w') =>
      let context : gmap string JsValue :=
        <["to" := recipientList to]> (<["subject" := VString subject]> ∅) in
      let wrappedError := categorizeSmtpError error (Some context) in
      (Rejected wrappedError,
       logger_error "SMTP send failed" context wrappedError w')
  end.

Definition sendMail (w : W) : option (Exit unit * RetryState * Env W) :=
  withRetry random sendMailOperation
    (Some (Partial.full (default RetryConfigs.smtp retryConfig)))
    (Some (<["operation" := VString "sendMail"]>
             (<["transport" := VString "nodemailer"]>
                (<["to" := VNumber (recipientCount to)]> ∅))))
    w.

End NodemailerTransport.

(** ** Rendering in [EmailServiceImplementation] *)

Section RenderTemplate.

Context {W : Type}.
Variable random : nat -> Q.
(** [this.config.retryConfig?.template] *)
Variable templateRetry : option RetryConfig.
(** The [try] block of the operation passed to [withRetry] by
    [renderTemplate]: [getTemplate], [render] and the debug line, acting
    on the world. *)
Variable tryRender : W -> Outcome string * W.
Variable templateName : string.
(** [Object.keys(props)] *)
Variable propKeys : list string.

(** The [TemplateRenderError] made by the [catch] handler. *)
Definition renderFailure (error : JsValue) : JsValue :=
  VEmailError TemplateRenderError
    ("Failed to render template " +:+ templateName +:+ ": "
       +:+ (if instanceofError error
            then match message error with
                 | Some (VString m) => m
                 | _ => EmptyString
                 end
            else Js.String error))
    (if instanceofError error then error else VUndefined)
    (Some (<["templateName" := VString templateName]>
             (<["props" := VArray (map VString propKeys)]> ∅))).

Definition renderOperation (w : W) : Outcome string * W :=
  match tryRender w with
  | (Resolved html, w') => (Resolved html, w')
  | (Rejected error, w') => (Rejected (renderFailure error), w')
  end.

Definition renderTemplate (w : W)
  : option (Exit string * RetryState * Env W) :=
  withRetry random renderOperation
    (Some (Partial.full (default RetryConfigs.template templateRetry)))
    (Some (<["operation" := VString "renderTemplate"]>
             (<["templateName" := VString templateName]> ∅)))
    w.

End RenderTemplate.

(** A failure that [categorizeSmtpError] files under authentication: an
    [Error] whose lower-cased message contains "auth", "login" or
    "password". *)
Definition authenticationFailure (error : JsValue) : Prop :=
  instanceofError error = true
  ∧ ∃ m, message error = Some (VString m)
         ∧ (Text.occursIn "auth" (Js.toLowerCase m)
            ∨ Text.occursIn "login" (Js.toLowerCase m)
            ∨ Text.occursIn "password" (Js.toLowerCase m)).

(** ** Concrete transports and renderers *)

Module Fixtures.

(** A transporter that refuses the login on every call; the world counts
    the calls. *)
Definition loginRefused : nat -> Outcome unit * nat :=
  fun calls => (Rejected (VError "Invalid login: 535"), S calls).



(** A logger that drops what it is given. *)
Definition silent : string -> gmap string JsValue -> JsValue -> nat -> nat :=
  fun _ _ _ w => w.


End Fixtures.

(** ** Retrying a transport that retries *)

(** [execute] called in an environment that already has a history: the
    same loop with a fresh [RetryState]. *)
Definition executeIn {T W : Type} (config : RetryConfig) (random : nat -> Q)
           (operation : W -> Outcome T * W)
           (context : option (gmap string JsValue)) (env : Env W)
  : option (Exit T * RetryState * Env W) :=
  loop config random operation context
       (S (Z.to_nat (maxAttempts config))) initialState env.

Definition withRetryIn {T W : Type} (random : nat -> Q)
           (operation : W -> Outcome T * W)
           (config : option Partial.RetryConfig)
           (context : option (gmap string JsValue)) (env : Env W)
  : option (Exit T * RetryState * Env W) :=
  executeIn (RetryableOperation_config (default Partial.empty config))
            random operation context env.

(** How the promise returned by [execute] settles; the environment given
    is kept if the loop does not finish, which does not happen (see
    [loop_total]). *)
Definition settle {T W : Type} (r : option (Exit T * RetryState * Env W))
           (env : Env W) : Outcome T * Env W :=
  match r with
  | Some (Returned v, _, env') => (Resolved v, env')
  | Some (Thrown e, _, env') => (Rejected e, env')
  | Some (ThrownAfterLoop e, _, env') => (Rejected e, env')
  | None => (Rejected VUndefined, env)
  end.

Section SendTemplateEmail.

Context {W : Type}.
(** The draws of [Math.random] seen by the transport and by the
    service. *)
Variable random randomOuter : nat -> Q.
(** [this.config.retryConfig] of the transport. *)
Variable transportRetry : option RetryConfig.
(** [this.config.retryConfig?.smtp] of the service. *)
Variable serviceRetry : option RetryConfig.
Variable trySend : W -> Outcome unit * W.
Variable logger_error : string -> gmap string JsValue -> JsValue -> W -> W.
Variable to : Recipients.
Variable subject : string.
Variable templateName : string.

(** [this.transport.sendMail(mailOptions)] for a [NodemailerTransport],
    as an operation on the environment of the transport. *)
Definition transportSendMail (env : Env W) : Outcome unit * Env W :=
  settle
    (withRetryIn random (sendMailOperation trySend logger_error to subject)
       (Some (Partial.full (default RetryConfigs.smtp transportRetry)))
       (Some (<["operation" := VString "sendMail"]>
                (<["transport" := VString "nodemailer"]>
                   (<["to" := VNumber (recipientCount to)]> ∅))))
       env)
    env.

(** The sending step of [sendTemplateEmail]:
    [withRetry(() => this.transport.sendMail(mailOptions), ...)]. *)
Definition sendWithRetry (env : Env W)
  : option (Exit unit * RetryState * Env (Env W)) :=
  withRetry randomOuter transportSendMail
    (Some (Partial.full (default RetryConfigs.smtp serviceRetry)))
    (Some (<["operation" := VString "sendTemplateEmail"]>
             (<["templateName" := VString templateName]>
                (<["recipients" := VNumber (recipientCount to)]> ∅))))
    env.

End SendTemplateEmail.

(** ** The template registry ([templateResolver.ts]) *)

(** How a synchronous call completes: it returns or it throws. *)
Inductive Completion (A : Type) : Type :=
| Normal (value : A)
| Throw (error : JsValue).
Arguments Normal {A} value.
Arguments Throw {A} error.

(** A call of one of the methods of a [Logger] ([logger.ts]). *)
Module Logger.

Inductive Level : Type := Debug | Info | Warn | Error.

Record Call : Type := {
  level : Level;
  message : string;
  context : option (gmap string JsValue);
  error : option JsValue
}.

End Logger.

Module Templates.

(** A JavaScript [Map] with string keys: the entries in insertion order,
    no key twice. *)
Section JsMap.

Context {V : Type}.

(** [Map.prototype.get] *)
Fixpoint mapGet (key : string) (m : list (string * V)) : option V :=
  match m with
  | [] => None
  | (k, v) :: rest => if String.eqb k key then Some v else mapGet key rest
  end.

(** [Map.prototype.has] *)
Definition mapHas (key : string) (m : list (string * V)) : bool :=
  match mapGet key m with Some _ => true | None => false end.

(** [Map.prototype.set]: an existing key keeps its place. *)
Fixpoint mapSet (key : string) (value : V) (m : list (string * V))
  : list (string * V) :=
  match m with
  | [] => [(key, value)]
  | (k, v) :: rest =>
      if String.eqb k key then (k, value) :: rest
      else (k, v) :: mapSet key value rest
  end.

(** [Array.from(map.keys())] *)
Definition mapKeys (m : list (string * V)) : list string := map fst m.

End JsMap.

(** [Array.prototype.join] on strings. *)
Fixpoint join (separator : string) (items : list string) : string :=
  match items with
  | [] => EmptyString
  | [x] => x
  | x :: rest => x +:+ separator +:+ join separator rest
  end.

(** The double-quote character (code 34). *)
Definition quote : string := String "034"%char EmptyString.

Section Registry.

(** [React.ComponentType] *)
Context {Component : Type}.

(** [TemplateDefinition]; [component] is [None] when the field is
    missing or falsy. *)
Record TemplateDefinition : Type := {
  name : string;
  component : option Component;
  subjectGenerator : option (gmap string JsValue -> Completion JsValue);
  propsSchema : option (gmap string JsValue);
  description : option string;
  category : option string
}.

(** The module state: the [templates] map and what went to the
    logger. *)
Record Registry : Type := {
  templates : list (string * TemplateDefinition);
  lines : list Logger.Call
}.

Definition say (l : Logger.Level) (msg : string)
           (ctx : option (gmap string JsValue)) (err : option JsValue)
           (r : Registry) : Registry :=
  {| templates := templates r;
     lines := lines r
              ++ [{| Logger.level := l; Logger.message := msg;
                     Logger.context := ctx; Logger.error := err |}] |}.

(** [definition.category || "uncategorized"] *)
Definition categoryOf (definition : TemplateDefinition) : string :=
  match category definition with
  | Some c => if String.eqb c EmptyString then "uncategorized" else c
  | None => "uncategorized"
  end.

Definition registerTemplate (definition : TemplateDefinition) (r : Registry)
  : Completion unit * Registry :=
  if String.eqb (name definition) EmptyString then
    (Throw (VError "Template name is required"), r)
  else
    match component definition with
    | None => (Throw (VError "Template component is required"), r)
    | Some _ =>
        let r :=
          if mapHas (name definition) (templates r) then
            say Logger.Warn
                ("Template " +:+ name definition +:+ " is being overridden")
                None None r
          else r in
        let r :=
          {| templates := mapSet (name definition) definition (templates r);
             lines := lines r |} in
        (Normal tt,
         say Logger.Debug "Template registered"
             (Some
                (<["name" := VString (name definition)]>
                   (<["hasSubjectGenerator" :=
                        VBoolean
                          (match subjectGenerator definition with
                           | Some _ => true
                           | None => false
                           end)]>
                      (<["hasSchema" :=
                           VBoolean
                             (match propsSchema definition with
                              | Some _ => true
                              | None => false
                              end)]>
                         (<["category" := VString (categoryOf definition)]>
                            ∅)))))
             None r)
    end.

(** [definitions.forEach(registerTemplate)]: the first throw ends the
    loop. *)
Fixpoint registerTemplates (definitions : list TemplateDefinition)
         (r : Registry) : Completion unit * Registry :=
  match definitions with
  | [] => (Normal tt, r)
  | definition :: rest =>
      match registerTemplate definition r with
      | (Normal _, r') => registerTemplates rest r'
      | (Throw e, r') => (Throw e, r')
      end
  end.

Definition getTemplate (name : string) (r : Registry)
  : Completion (option Component) :=
  match mapGet name (templates r) with
  | None =>
      let availableTemplates := join ", " (mapKeys (templates r)) in
      Throw
        (VEmailError TemplateNotFoundError
           ("Template " +:+ quote +:+ name +:+ quote
              +:+ " not found. Available templates: "
              +:+ availableTemplates)
           VUndefined
           (Some
              (<["templateName" := VString name]>
                 (<["availableTemplates" :=
                      VArray (map VString (mapKeys (templates r)))]> ∅))))
  | Some definition => Normal (component definition)
  end.

Definition getTemplateDefinition (name : string) (r : Registry)
  : option TemplateDefinition :=
  mapGet name (templates r).

Definition getAvailableTemplates (r : Registry) : list string :=
  mapKeys (templates r).

Definition clearTemplates (r : Registry) : Registry :=
  {| templates := []; lines := lines r |}.

(** The last definition of a list that carries the given name. *)
Fixpoint lastNamed (key : string) (definitions : list TemplateDefinition)
  : option TemplateDefinition :=
  match definitions with
  | [] => None
  | definition :: rest =>
      match lastNamed key rest with
      | Some later => Some later
      | None =>
          if String.eqb (name definition) key then Some definition else None
      end
  end.

(** A registry as it is when the module is loaded. *)
Definition initial : Registry := {| templates := []; lines := [] |}.

(** The registries that [registerTemplate] and [clearTemplates] make
    from the initial one. *)
Inductive Reachable : Registry -> Prop :=
| reach_initial : Reachable initial
| reach_register definition r :
    Reachable r -> Reachable (snd (registerTemplate definition r))
| reach_clear r : Reachable r -> Reachable (clearTemplates r).

End Registry.

Arguments TemplateDefinition : clear implicits.
Arguments Registry : clear implicits.

End Templates.

(** ** Registration of built-in and discovered templates
    ([autoRegistration.ts]) *)

Module AutoRegistration.

(** [a || b] on values. *)
Definition orElse (a b : JsValue) : JsValue := if truthy a then a else b.

(** [a || b] on an optional string. *)
Definition orDefault (a : option string) (b : string) : string :=
  match a with
  | Some s => if String.eqb s EmptyString then b else s
  | None => b
  end.

(** [props.key] *)
Definition prop (props : gmap string JsValue) (key : string) : JsValue :=
  default VUndefined (props !! key).

(** [{ type: "string", required: ... }] *)
Definition stringProp (required : bool) : JsValue :=
  VObject (<["type" := VString "string"]>
             (<["required" := VBoolean required]> ∅)).

(** [DiscoveredTemplate.metadata] *)
Record Metadata : Type := {
  category : option string;
  description : option string;
  schema : option (gmap string JsValue)
}.

(** What [registerDiscoveredTemplates] returns. *)
Record Registration : Type := {
  registered : Z;
  failed : Z;
  errors : list JsValue
}.

Section AutoRegistration.

Context {Component : Type}.

(** The components imported from [./templates/types]. *)
Variables WelcomeEmail NotificationEmail : Component.

Definition BUILT_IN_TEMPLATES : list (Templates.TemplateDefinition Component) :=
  [ {| Templates.name := "welcome";
       Templates.component := Some WelcomeEmail;
       Templates.category := Some "onboarding";
       Templates.description := Some "Welcome email for new users";
       Templates.subjectGenerator :=
         Some (fun props =>
                 Normal
                   (VString
                      ("Welcome to "
                         +:+ Js.String
                               (orElse (prop props "companyName")
                                       (VString "our service"))
                         +:+ "!")));
       Templates.propsSchema :=
         Some (<["name" := stringProp true]>
                 (<["email" := stringProp true]>
                    (<["actionUrl" := stringProp false]>
                       (<["actionText" := stringProp false]>
                          (<["companyName" := stringProp false]>
                             (<["companyUrl" := stringProp false]> ∅)))))) |};
    {| Templates.name := "notification";
       Templates.component := Some NotificationEmail;
       Templates.category := Some "system";
       Templates.description :=
         Some "General notification email with priority levels";
       Templates.subjectGenerator :=
         Some (fun props =>
                 Normal (orElse (prop props "title")
                                (VString "Important notification")));
       Templates.propsSchema :=
         Some (<["title" := stringProp true]>
                 (<["message" := stringProp true]>
                    (<["actionUrl" := stringProp false]>
                       (<["actionText" := stringProp false]>
                          (<["priority" :=
                               VObject
                                 (<["type" := VString "string"]>
                                    (<["required" := VBoolean false]>
                                       (<["enum" :=
                                            VArray [VString "low";
                                                    VString "normal";
                                                    VString "high"]]>
                                          (<["default" := VString "normal"]>
                                             ∅))))]>
                             (<["companyName" := stringProp false]>
                                (<["companyUrl" := stringProp false]>
                                   ∅))))))) |} ].

(** The body of the [forEach] of [autoRegisterBuiltInTemplates]. *)
Definition autoRegister (template : Templates.TemplateDefinition Component)
           (r : Templates.Registry Component) : Templates.Registry Component :=
  match Templates.registerTemplate template r with
  | (Normal _, r) =>
      Templates.say Logger.Debug
        ("Auto-registered template: " +:+ Templates.name template)
        (Some
           (<["category" :=
                match Templates.category template with
                | Some c => VString c
                | None => VUndefined
                end]>
              (<["hasSchema" :=
                   VBoolean
                     (match Templates.propsSchema template with
                      | Some _ => true
                      | None => false
                      end)]> ∅)))
        None r
  | (Throw error, r) =>
      Templates.say Logger.Error
        ("Failed to auto-register template: " +:+ Templates.name template)
        (Some (<["templateName" := VString (Templates.name template)]> ∅))
        (if instanceofError error then Some error else None)
        r
  end.

Definition autoRegisterBuiltInTemplates (r : Templates.Registry Component)
  : Templates.Registry Component :=
  let r :=
    Templates.say Logger.Info "Auto-registering built-in templates"
                  None None r in
  let r := fold_left (fun r template => autoRegister template r)
                     BUILT_IN_TEMPLATES r in
  Templates.say Logger.Info
    ("Auto-registration complete. Registered "
       +:+ Js.numberToString (Z.of_nat (length BUILT_IN_TEMPLATES))
       +:+ " templates")
    None None r.

(** [DiscoveredTemplate] *)
Record DiscoveredTemplate : Type := {
  name : string;
  path : string;
  component : option Component;
  metadata : option Metadata
}.

(** The definition built for a discovered template that has a
    component. *)
Definition discoveredDefinition (template : DiscoveredTemplate)
           (c : Component) : Templates.TemplateDefinition Component :=
  {| Templates.name := name template;
     Templates.component := Some c;
     Templates.subjectGenerator := None;
     Templates.category :=
       Some (orDefault (metadata template ≫= category) "discovered");
     Templates.description :=
       Some (orDefault (metadata template ≫= description)
                       ("Auto-discovered template: " +:+ name template));
     Templates.propsSchema := metadata template ≫= schema |}.

(** The body of the [forEach] of [registerDiscoveredTemplates]: the
    [try] block, then the counters and the log line of either outcome. *)
Definition registerDiscovered (template : DiscoveredTemplate)
           (acc : Registration * Templates.Registry Component)
  : Registration * Templates.Registry Component :=
  let '(counts, r) := acc in
  let attempt :=
    match component template with
    | None =>
        (Throw (VError ("Template " +:+ name template
                          +:+ " has no component")), r)
    | Some c =>
        let definition := discoveredDefinition template c in
        match Templates.registerTemplate definition r with
        | (Normal _, r) => (Normal definition, r)
        | (Throw error, r) => (Throw error, r)
        end
    end in
  match attempt with
  | (Normal definition, r) =>
      ({| registered := registered counts + 1;
          failed := failed counts;
          errors := errors counts |},
       Templates.say Logger.Debug
         ("Registered discovered template: " +:+ name template)
         (Some
            (<["path" := VString (path template)]>
               (<["category" :=
                    match Templates.category definition with
                    | Some c => VString c
                    | None => VUndefined
                    end]> ∅)))
         None r)
  | (Throw error, r) =>
      let err :=
        if instanceofError error then error
        else VError (Js.String error) in
      ({| registered := registered counts;
          failed := failed counts + 1;
          errors := errors counts ++ [err] |},
       Templates.say Logger.Error
         ("Failed to register discovered template: " +:+ name template)
         (Some
            (<["templateName" := VString (name template)]>
               (<["path" := VString (path template)]> ∅)))
         (Some err) r)
  end.

Definition registerDiscoveredTemplates (templates : list DiscoveredTemplate)
           (r : Templates.Registry Component)
  : Registration * Templates.Registry Component :=
  let '(counts, r) :=
    fold_left (fun acc template => registerDiscovered template acc)
              templates
              ({| registered := 0; failed := 0; errors := [] |}, r) in
  (counts,
   Templates.say Logger.Info "Template discovery registration complete"
     (Some
        (<["registered" := VNumber (registered counts)]>
           (<["failed" := VNumber (failed counts)]>
              (<["total" := VNumber (Z.of_nat (length templates))]> ∅))))
     None r).

(** The [options] of [initializeTemplates]. *)
Record Options : Type := {
  autoRegisterBuiltIn : option bool;
  customTemplates : option (list (Templates.TemplateDefinition Component))
}.

Definition initializeTemplates (options : Options)
           (r : Templates.Registry Component)
  : Outcome unit * Templates.Registry Component :=
  let auto := default true (autoRegisterBuiltIn options) in
  let custom := default [] (customTemplates options) in
  let r :=
    Templates.say Logger.Info "Initializing template system"
      (Some
         (<["autoRegisterBuiltIn" := VBoolean auto]>
            (<["customTemplateCount" :=
                 VNumber (Z.of_nat (length custom))]> ∅)))
      None r in
  let r := if auto then autoRegisterBuiltInTemplates r else r in
  let attempt :=
    if (0 <? Z.of_nat (length custom))%Z then
      Templates.registerTemplates custom
        (Templates.say Logger.Info
           ("Registering "
              +:+ Js.numberToString (Z.of_nat (length custom))
              +:+ " custom templates")
           None None r)
    else (Normal tt, r) in
  match attempt with
  | (Normal _, r) =>
      (Resolved tt,
       Templates.say Logger.Info "Template system initialization complete"
                     None None r)
  | (Throw error, r) =>
      (Rejected error,
       Templates.say Logger.Error "Template system initialization failed"
                     None
                     (if instanceofError error then Some error else None)
                     r)
  end.

(** A discovered template that [registerDiscoveredTemplates] can
    register. *)
Definition registrable (template : DiscoveredTemplate) : bool :=
  match component template with
  | Some _ => negb (String.eqb (name template) EmptyString)
  | None => false
  end.

(** The definition of the last registrable template of a list that
    carries the given name. *)
Fixpoint lastDiscovered (key : string) (templates : list DiscoveredTemplate)
  : option (Templates.TemplateDefinition Component) :=
  match templates with
  | [] => None
  | template :: rest =>
      match lastDiscovered key rest with
      | Some later => Some later
      | None =>
          match component template with
          | Some c =>
              if negb (String.eqb (name template) EmptyString)
                 && String.eqb (name template) key
              then Some (discoveredDefinition template c)
              else None
          | None => None
          end
      end
  end.

(** The built-in definition of a name, if it has one. *)
Definition builtIn (key : string)
  : option (Templates.TemplateDefinition Component) :=
  Templates.lastNamed key BUILT_IN_TEMPLATES.

End AutoRegistration.

Arguments DiscoveredTemplate : clear implicits.
Arguments Options : clear implicits.

End AutoRegistration.

(** ** Concrete templates *)

(** Components are stood for by their names. *)
Module RegistryFixtures.

Definition receipt : Templates.TemplateDefinition string :=
  {| Templates.name := "receipt";
     Templates.component := Some "ReceiptEmail";
     Templates.subjectGenerator := None;
     Templates.propsSchema := None;
     Templates.description := None;
     Templates.category := Some "billing" |}.

(** A second definition under the same name. *)
Definition receiptRedesigned : Templates.TemplateDefinition string :=
  {| Templates.name := "receipt";
     Templates.component := Some "ReceiptEmailV2";
     Templates.subjectGenerator := None;
     Templates.propsSchema := None;
     Templates.description := Some "Redesigned receipt";
     Templates.category := None |}.

(** A custom template named like a built-in one. *)
Definition customWelcome : Templates.TemplateDefinition string :=
  {| Templates.name := "welcome";
     Templates.component := Some "CustomWelcome";
     Templates.subjectGenerator := None;
     Templates.propsSchema := None;
     Templates.description := None;
     Templates.category := None |}.

(** A definition without a name. *)
Definition nameless : Templates.TemplateDefinition string :=
  {| Templates.name := EmptyString;
     Templates.component := Some "Orphan";
     Templates.subjectGenerator := None;
     Templates.propsSchema := None;
     Templates.description := None;
     Templates.category := None |}.

Definition reminder : Templates.TemplateDefinition string :=
  {| Templates.name := "reminder";
     Templates.component := Some "ReminderEmail";
     Templates.subjectGenerator := None;
     Templates.propsSchema := None;
     Templates.description := None;
     Templates.category := None |}.

(** The registry of a freshly loaded module. *)
Definition empty : Templates.Registry string := Templates.initial.

(** The registry after [registerTemplate(receipt)]. *)
Definition withReceipt : Templates.Registry string :=
  snd (Templates.registerTemplate receipt empty).

(** An environment with no history. *)
Definition idle : Env nat := {| world := 0%nat; draws := 0; trace := [] |}.

End RegistryFixtures.

(** ** Rendering a registered template *)

Section RenderRegistered.

Context {Component W : Type}.
(** The template registry when [renderTemplate] runs. *)
Variable registry : Templates.Registry Component.
(** [render(React.createElement(template, props))] and the debug line
    that follows it, acting on the world. *)
Variable render : option Component -> W -> Outcome string * W.
Variable templateName : string.

(** The [try] block of the operation of [renderTemplate]. *)
Definition tryRenderTemplate (w : W) : Outcome string * W :=
  match Templates.getTemplate templateName registry with
  | Throw error => (Rejected error, w)
  | Normal template => render template w
  end.

End RenderRegistered.

Module RenderFixtures.

(** A renderer that succeeds; the world counts its calls. *)
Definition renders : option string -> nat -> Outcome string * nat :=
  fun _ calls => (Resolved "<html></html>", S calls).

End RenderFixtures.

(** * Theorems *)

(** * Facts about substrings and case *)

Module TextFacts.

Import Text.

#[local] Arguments append !s1 s2 : simpl nomatch.








Lemma startsWith_spec s sub :
  Js.startsWith s sub = true ↔ ∃ post, s = sub +:+ post.
Proof.
  revert s. induction sub as [|a sub IH]; intros s.
  - destruct s; cbn; split; eauto.
  - destruct s as [|b s]; cbn.
    + split; [discriminate | intros [post H]; discriminate].
    + rewrite andb_true_iff, Ascii.eqb_eq, IH. split.
      * intros [-> [post ->]]. eauto.
      * intros [post H]. injection H as -> ->. eauto.
Qed.

Lemma includes_spec s sub : Js.includes s sub = true ↔ occursIn sub s.
Proof.
  unfold occursIn. induction s as [|c s IH].
  - cbn -[Js.startsWith]. rewrite orb_false_r, startsWith_spec. split.
    + intros [post H]. exists EmptyString, post. exact H.
    + intros (pre & post & H). destruct pre; [eauto | discriminate].
  - cbn -[Js.startsWith]. rewrite orb_true_iff, startsWith_spec, IH. split.
    + intros [[post H] | (pre & post & H)].
      * exists EmptyString, post. exact H.
      * exists (String c pre), post. cbn. now rewrite H.
    + intros (pre & post & H). destruct pre as [|d pre].
      * left. eauto.
      * right. cbn in H. injection H as _ H. eauto.
Qed.


End TextFacts.


(** * The classifier *)

Section Classifier.

Import Errors Text TextFacts.



(** Values that have no string [message] are never retryable. *)
Lemma isRetryableError_no_message (v : JsValue) :
  instanceofEmailError v = false ->
  (∀ m, message v ≠ Some (VString m)) ->
  isRetryableError v = false.
Proof.
  intros He H. destruct v as [| |b|n|s| |props| | | | |]; try reflexivity;
    try discriminate He.
  - now destruct b.
  - unfold isRetryableError. cbn. now rewrite orb_true_r.
  - unfold isRetryableError. cbn. now rewrite orb_true_r.
  - unfold isRetryableError, hasMessage. cbn.
    destruct (props !! "message") as [[]|] eqn:E; try reflexivity.
    exfalso. eapply H. cbn. exact E.
  - exfalso. eapply H. reflexivity.
Qed.

(** C5, against the claim: a message that contains "login" but not
    "auth" is classified as a send failure, not as an authentication
    failure. *)
Lemma wrapError_login_counterexample :
  occursIn "login" (Js.toLowerCase "Login failed")
  ∧ wrapError (VError "Login failed") None
    = VEmailError EmailSendError "Email operation failed: Login failed"
                  (VError "Login failed") None
  ∧ retryable EmailSendError = true.
Proof.
  split; [|split; reflexivity].
  apply includes_spec. reflexivity.
Qed.

(** C5, amended. For a generic error, [wrapError] lower-cases the message
    and looks for two substrings: "auth" gives an
    [SMTPAuthenticationError] (not retryable); otherwise "connect" gives
    an [SMTPConnectionError] (retryable); otherwise the result is an
    [EmailSendError] (retryable) whose message is prefixed
    "Email operation failed: ".  The original error is the cause. *)
Theorem wrapError_generic (msg : string) (ctx : option (gmap string JsValue)) :
  let lowered := Js.toLowerCase msg in
  (occursIn "auth" lowered ->
   wrapError (VError msg) ctx
   = VEmailError SMTPAuthenticationError ("Authentication failed: " +:+ msg)
                 (VError msg) ctx
   ∧ retryable SMTPAuthenticationError = false)
  ∧ (¬ occursIn "auth" lowered -> occursIn "connect" lowered ->
     wrapError (VError msg) ctx
     = VEmailError SMTPConnectionError ("Connection failed: " +:+ msg)
                   (VError msg) ctx
     ∧ retryable SMTPConnectionError = true)
  ∧ (¬ occursIn "auth" lowered -> ¬ occursIn "connect" lowered ->
     wrapError (VError msg) ctx
     = VEmailError EmailSendError ("Email operation failed: " +:+ msg)
                   (VError msg) ctx
     ∧ retryable EmailSendError = true).
Proof.
  cbn zeta. unfold wrapError.
  destruct (Js.includes (Js.toLowerCase msg) "auth") eqn:Ea;
    [apply includes_spec in Ea | apply not_true_iff_false in Ea;
                                  rewrite includes_spec in Ea];
    (destruct (Js.includes (Js.toLowerCase msg) "connect") eqn:Ec;
     [apply includes_spec in Ec | apply not_true_iff_false in Ec;
                                   rewrite includes_spec in Ec]);
    repeat split; intros; try reflexivity; contradiction.
Qed.

Lemma wrapError_generic_witness :
  wrapError (VError "connect ETIMEDOUT") None
  = VEmailError SMTPConnectionError "Connection failed: connect ETIMEDOUT"
                (VError "connect ETIMEDOUT") None
  ∧ retryable SMTPConnectionError = true.
Proof.
  apply (proj1 (proj2 (wrapError_generic "connect ETIMEDOUT" None))).
  - rewrite <- includes_spec. cbn. discriminate.
  - apply includes_spec. reflexivity.
Defined.

(** The keyword lists of the claim are those of the transport's
    classifier, which has its own message prefixes. *)
Lemma categorizeSmtpError_keywords (msg : string)
      (ctx : option (gmap string JsValue)) :
  let lowered := Js.toLowerCase msg in
  let auth := occursIn "auth" lowered ∨ occursIn "login" lowered
              ∨ occursIn "password" lowered in
  let conn := occursIn "connect" lowered ∨ occursIn "timeout" lowered
              ∨ occursIn "enotfound" lowered in
  (auth ->
   categorizeSmtpError (VError msg) ctx
   = VEmailError SMTPAuthenticationError
                 ("SMTP authentication failed: " +:+ msg) (VError msg) ctx)
  ∧ (¬ auth -> conn ->
     categorizeSmtpError (VError msg) ctx
     = VEmailError SMTPConnectionError
                   ("SMTP connection failed: " +:+ msg) (VError msg) ctx)
  ∧ (¬ auth -> ¬ conn ->
     categorizeSmtpError (VError msg) ctx
     = VEmailError EmailSendError ("SMTP send failed: " +:+ msg)
                   (VError msg) ctx).
Proof.
  cbn zeta. unfold categorizeSmtpError. cbn [instanceofError negb message].
  rewrite <- !includes_spec.
  destruct (Js.includes (Js.toLowerCase msg) "auth"),
    (Js.includes (Js.toLowerCase msg) "login"),
    (Js.includes (Js.toLowerCase msg) "password"),
    (Js.includes (Js.toLowerCase msg) "connect"),
    (Js.includes (Js.toLowerCase msg) "timeout"),
    (Js.includes (Js.toLowerCase msg) "enotfound"); cbn;
    repeat split; intros; try reflexivity; exfalso; intuition congruence.
Qed.

(** C8, against the claim: the error made from a thrown string is
    retryable. *)
Lemma wrapError_unknown_counterexample :
  instanceofError (VString "boom") = false
  ∧ wrapError (VString "boom") None
    = VEmailError EmailSendError "Unknown error occurred: boom" VUndefined
                  None
  ∧ isRetryableError (wrapError (VString "boom") None) ≠ false.
Proof. repeat split. discriminate. Qed.

(** C8, amended. For a value that is not an [Error] instance and on
    which String() returns, [wrapError] makes an [EmailSendError] with
    message "Unknown error occurred: " followed by [String(value)] and
    no cause; like every [EmailSendError] it is retryable. *)
Theorem wrapError_non_error (v : JsValue)
        (ctx : option (gmap string JsValue)) :
  instanceofError v = false ->
  Js.stringifiable v = true ->
  wrapError v ctx
  = VEmailError EmailSendError ("Unknown error occurred: " +:+ Js.String v)
                VUndefined ctx
  ∧ cause (wrapError v ctx) = VUndefined
  ∧ isRetryableError (wrapError v ctx) = true.
Proof.
  intros H _. destruct v; try discriminate; repeat split.
Qed.

Lemma wrapError_non_error_witness :
  wrapError (VDecimal false 1 22) None
  = VEmailError EmailSendError "Unknown error occurred: 1e+21" VUndefined
                None
  ∧ cause (wrapError (VDecimal false 1 22) None) = VUndefined
  ∧ isRetryableError (wrapError (VDecimal false 1 22) None) = true.
Proof.
  apply (wrapError_non_error (VDecimal false 1 22) None); reflexivity.
Defined.

End Classifier.

(** * The delay between attempts *)

Lemma Math_round_bounds (x : Q) :
  (x - (1 # 2) < inject_Z (Math_round x) <= x + (1 # 2))%Q.
Proof.
  unfold Math_round.
  pose proof (Qfloor_le (x + (1 # 2))) as Hle.
  pose proof (Qlt_floor (x + (1 # 2))) as Hlt.
  rewrite inject_Z_plus in Hlt. change (inject_Z 1) with 1%Q in Hlt.
  split; [lra | exact Hle].
Qed.

Lemma Math_round_nonneg (x : Q) : (0 <= x)%Q -> (0 <= Math_round x)%Z.
Proof.
  intros Hx. unfold Math_round.
  change 0%Z with (Qfloor 0). apply Qfloor_resp_le. lra.
Qed.

Lemma Math_round_integer (x : Q) (z : Z) :
  (x == inject_Z z)%Q -> Math_round x = z.
Proof.
  intros Hx. unfold Math_round.
  rewrite (Qfloor_comp _ (inject_Z z + (1 # 2))) by now rewrite Hx.
  pose proof (Qfloor_le (inject_Z z + (1 # 2))) as Hle.
  pose proof (Qlt_floor (inject_Z z + (1 # 2))) as Hlt.
  set (f := Qfloor (inject_Z z + (1 # 2))) in *.
  assert (H1 : (inject_Z f < inject_Z (z + 1))%Q).
  { rewrite inject_Z_plus. change (inject_Z 1) with 1%Q. lra. }
  assert (H2 : (inject_Z z < inject_Z (f + 1))%Q) by lra.
  rewrite <- Zlt_Qlt in H1, H2. lia.
Qed.

Section Delay.

Context {W : Type}.
Variable config : RetryConfig.
Variable random : nat -> Q.

Lemma calculateDelay_no_jitter (a : Z) (env : Env W) :
  jitter config = false ->
  calculateDelay config random a env
  = (Z.max 0 (Math_round (cappedDelay config a)), env).
Proof.
  intros Hj. unfold calculateDelay, cappedDelay, bind, ret. now rewrite Hj.
Qed.

(** Where the capped delay is a non-negative whole number of
    milliseconds, rounding changes nothing. *)
Lemma calculateDelay_integral (a z : Z) (env : Env W) :
  jitter config = false ->
  (cappedDelay config a == inject_Z z)%Q ->
  (0 <= z)%Z ->
  fst (calculateDelay config random a env) = z.
Proof.
  intros Hj Hc Hz. rewrite calculateDelay_no_jitter by exact Hj.
  cbn [fst]. rewrite (Math_round_integer _ z Hc). lia.
Qed.

Lemma calculateDelay_nonneg (a : Z) (env : Env W) :
  (0 <= fst (calculateDelay config random a env))%Z.
Proof.
  unfold calculateDelay, bind, ret, Math_random.
  destruct (jitter config); cbn [fst]; apply Z.le_max_l.
Qed.

End Delay.

(** * Binary64 arithmetic *)

#[local] Open Scope Q_scope.

Section Binary64Facts.

Import Binary64.

Lemma two_power_pos (z : Z) : 0 < 2 ^ z.
Proof. apply Qpower_0_lt. reflexivity. Qed.

Lemma two_power_succ (z : Z) : 2 ^ (z + 1) == 2 * 2 ^ z.
Proof. rewrite Qpower_plus by discriminate. change (2 ^ 1) with 2. ring. Qed.

Lemma two_power_pred (z : Z) : 2 ^ (z - 1) == 2 ^ z / 2.
Proof. rewrite Qpower_minus by discriminate. reflexivity. Qed.

Lemma two_power_log2 (p : Z) :
  (0 < p)%Z ->
  2 ^ Z.log2 p <= inject_Z p ∧ inject_Z p < 2 * 2 ^ Z.log2 p.
Proof.
  intros Hp. destruct (Z.log2_spec p Hp) as [Hlo Hhi].
  pose proof (Z.log2_nonneg p) as Hn.
  rewrite <- two_power_succ.
  rewrite <- !(Zpower_Qpower 2) by lia.
  split; [rewrite <- Zle_Qle | rewrite <- Zlt_Qlt]; lia.
Qed.

(** [ilog2] is the binary exponent of a positive rational. *)
Lemma ilog2_spec (q : Q) :
  0 < q -> 2 ^ ilog2 q <= q ∧ q < 2 * 2 ^ ilog2 q.
Proof.
  intros Hq. unfold ilog2.
  destruct q as [p d]. unfold Qlt in Hq. cbn in Hq.
  assert (Hp : (0 < p)%Z) by lia. cbn [Qnum Qden].
  destruct (two_power_log2 p Hp) as [Hp1 Hp2].
  destruct (two_power_log2 (Zpos d) eq_refl) as [Hd1 Hd2].
  set (lp := Z.log2 p) in *. set (ld := Z.log2 (Zpos d)) in *.
  pose proof (two_power_pos lp) as Hlp.
  pose proof (two_power_pos ld) as Hld.
  assert (Hdpos : 0 < inject_Z (Zpos d)) by reflexivity.
  assert (Hq' : p # d == inject_Z p / inject_Z (Zpos d))
    by apply Qmake_Qdiv.
  assert (Hdiv : 2 ^ (lp - ld) == 2 ^ lp / 2 ^ ld)
    by (apply Qpower_minus; discriminate).
  assert (Hup : p # d < 2 * 2 ^ (lp - ld)).
  { rewrite Hq', Hdiv. apply Qlt_shift_div_r; [exact Hdpos|].
    assert (H : 2 * (2 ^ lp / 2 ^ ld) * inject_Z (Zpos d)
                == 2 * 2 ^ lp * (inject_Z (Zpos d) / 2 ^ ld))
      by (field; lra).
    rewrite H.
    assert (1 <= inject_Z (Zpos d) / 2 ^ ld)
      by (apply Qle_shift_div_l; [exact Hld | lra]).
    nra. }
  assert (Hlow : 2 ^ (lp - ld) / 2 <= p # d).
  { rewrite Hq', Hdiv. apply Qle_shift_div_l; [exact Hdpos|].
    assert (H : 2 ^ lp / 2 ^ ld / 2 * inject_Z (Zpos d)
                == 2 ^ lp * (inject_Z (Zpos d) / (2 * 2 ^ ld)))
      by (field; lra).
    rewrite H.
    assert (inject_Z (Zpos d) / (2 * 2 ^ ld) <= 1)
      by (apply Qle_shift_div_r; lra).
    nra. }
  destruct (Qle_bool (2 ^ (lp - ld)) (p # d)) eqn:Hb.
  - apply Qle_bool_iff in Hb. split; [exact Hb | exact Hup].
  - assert (Hlt : p # d < 2 ^ (lp - ld)).
    { apply Qnot_le_lt. intros H. apply Qle_bool_iff in H. congruence. }
    rewrite two_power_pred. split; [exact Hlow|].
    assert (2 * (2 ^ (lp - ld) / 2) == 2 ^ (lp - ld)) by (field; lra).
    lra.
Qed.

Lemma nearestEven_error (x : Q) :
  Qabs (inject_Z (nearestEven x) - x) <= 1 # 2.
Proof.
  unfold nearestEven.
  pose proof (Qfloor_le x) as Hle. pose proof (Qlt_floor x) as Hlt.
  rewrite inject_Z_plus in Hlt. change (inject_Z 1) with 1 in Hlt.
  set (f := Qfloor x) in *.
  apply Qabs_Qle_condition.
  destruct (Qcompare_spec (x - inject_Z f) (1 # 2)) as [H | H | H].
  - destruct (Z.even f); [|rewrite inject_Z_plus;
                           change (inject_Z 1) with 1]; split; lra.
  - split; lra.
  - rewrite inject_Z_plus. change (inject_Z 1) with 1. split; lra.
Qed.

(** Rounding to binary64 moves a number by at most half a unit in the
    last place: a relative error of [2^-53], or [2^-1075] where the
    last place is held at [2^-1074]. *)
Lemma round64_error (q : Q) :
  Qabs (round64 q - q) <= Qabs q * (1 # 2 ^ 53) + (1 # 2 ^ 1075).
Proof.
  unfold round64. destruct (Qeq_bool q 0) eqn:Hz.
  - apply Qeq_bool_iff in Hz. rewrite Hz. vm_compute. discriminate.
  - apply Qeq_bool_neq in Hz.
    assert (Ha : 0 < Qabs q).
    { destruct (Qlt_le_dec q 0) as [Hneg | Hpos].
      - rewrite Qabs_neg by lra. lra.
      - rewrite Qabs_pos by exact Hpos.
        destruct (Qle_lt_or_eq _ _ Hpos) as [H | H]; [exact H|].
        exfalso. apply Hz. now symmetry. }
    set (a := Qabs q) in *.
    destruct (ilog2_spec a Ha) as [Hlo Hhi].
    set (E := ilog2 a) in *.
    set (e := Z.max (E - 52) (-1074)).
    pose proof (two_power_pos e) as He.
    pose proof (nearestEven_error (a / 2 ^ e)) as Hn.
    set (n := nearestEven (a / 2 ^ e)) in *.
    apply Qabs_Qle_condition in Hn.
    assert (Hx : a / 2 ^ e * 2 ^ e == a) by (field; lra).
    set (x := a / 2 ^ e) in *.
    assert (Hhalf : 2 ^ e * (1 # 2) <= a * (1 # 2 ^ 53) + (1 # 2 ^ 1075)).
    { subst e. destruct (Z.max_spec (E - 52) (-1074)) as [[_ ->] | [_ ->]].
      - change (2 ^ (-1074) * (1 # 2)) with (1 # 2 ^ 1075).
        assert (0 <= a * (1 # 2 ^ 53))
          by (apply Qmult_le_0_compat; [lra | discriminate]).
        set (eta := 1 # 2 ^ 1075) in *. lra.
      - assert (H52 : 2 ^ (E - 52) == 2 ^ E * (1 # 2 ^ 52)).
        { rewrite Qpower_minus by discriminate.
          change (2 ^ 52) with (inject_Z (2 ^ 52)).
          unfold Qdiv. apply Qmult_comp; [reflexivity|]. reflexivity. }
        rewrite H52.
        assert (H53 : 2 ^ E * (1 # 2 ^ 52) * (1 # 2)
                      == 2 ^ E * (1 # 2 ^ 53)).
        { rewrite <- Qmult_assoc. apply Qmult_comp; reflexivity. }
        rewrite H53.
        assert (2 ^ E * (1 # 2 ^ 53) <= a * (1 # 2 ^ 53))
          by (apply Qmult_le_compat_r; [exact Hlo | discriminate]).
        assert (0 <= (1 # 2 ^ 1075)) by discriminate.
        set (eta := 1 # 2 ^ 1075) in *. set (u := 1 # 2 ^ 53) in *. lra. }
    apply Qabs_Qle_condition.
    assert (Hd : - (2 ^ e * (1 # 2)) <= inject_Z n * 2 ^ e - a
                 ∧ inject_Z n * 2 ^ e - a <= 2 ^ e * (1 # 2))
      by (split; nra).
    destruct (Qle_bool 0 q) eqn:Hs.
    + apply Qle_bool_iff in Hs.
      assert (Hq : a == q) by (subst a; now apply Qabs_pos).
      split; lra.
    + assert (Hq : a == - q).
      { subst a. apply Qabs_neg. apply Qlt_le_weak, Qnot_le_lt.
        intros H. apply Qle_bool_iff in H. congruence. }
      split; lra.
Qed.

Lemma round64_nonneg (q : Q) : 0 <= q -> 0 <= round64 q.
Proof.
  intros Hq. unfold round64. destruct (Qeq_bool q 0) eqn:Hz; [lra|].
  apply Qeq_bool_neq in Hz.
  assert (Hs : Qle_bool 0 q = true) by now apply Qle_bool_iff.
  rewrite Hs.
  set (e := Z.max (ilog2 (Qabs q) - 52) (-1074)).
  pose proof (two_power_pos e) as He.
  set (x := Qabs q / 2 ^ e).
  assert (Hx : 0 <= x).
  { subst x. apply Qle_shift_div_l; [exact He|].
    pose proof (Qabs_nonneg q). lra. }
  assert (Hn : (0 <= nearestEven x)%Z).
  { unfold nearestEven.
    assert (Hf : (0 <= Qfloor x)%Z).
    { change 0%Z with (Qfloor 0). now apply Qfloor_resp_le. }
    destruct (Qcompare (x - inject_Z (Qfloor x)) (1 # 2));
      [destruct (Z.even (Qfloor x))| |]; lia. }
  assert (0 <= inject_Z (nearestEven x))
    by (change 0 with (inject_Z 0); now rewrite <- Zle_Qle).
  assert (0 <= inject_Z (nearestEven x) * 2 ^ e)
    by (apply Qmult_le_0_compat; lra).
  lra.
Qed.



Lemma round64_near (x b : Q) :
  Qabs x <= b -> Qabs (round64 x - x) <= b * u + eta.
Proof.
  intros Hb. eapply Qle_trans; [apply round64_error|]. fold u eta.
  assert (Qabs x * u <= b * u)
    by (apply Qmult_le_compat_r; [exact Hb | discriminate]).
  lra.
Qed.

Lemma round64_bound (x b : Q) :
  Qabs x <= b -> Qabs (round64 x) <= b + (b * u + eta).
Proof.
  intros Hb. pose proof (round64_near x b Hb) as Hn.
  assert (E : round64 x == (round64 x - x) + x) by ring.
  rewrite E. eapply Qle_trans; [apply Qabs_triangle|]. lra.
Qed.

Section Jitter.

Context {W : Type}.
Variable Math_pow : Q -> Z -> Q.
Variable config : RetryConfig.
Variable random : nat -> Q.

(** The value to which [delay += jitter] brings a capped delay [c]:
    within a tenth of [c], up to the rounding of five operations. *)
Lemma jittered_near (c r : Q) :
  0 <= c ->
  0 <= r < 1 ->
  Qabs (round64 (c + round64 (round64 (round64 (r - (1 # 2)) * 2)
                              * round64 (c * tenth)))
        - c)
  <= c * (1 # 10) + (c * (1 # 2 ^ 50) + (1 # 2 ^ 1000)).
Proof.
  intros Hc [Hr0 Hr1].
  set (KA := (1 # 2) + ((1 # 2) * u + eta)).
  set (KB := 2 * KA + (2 * KA * u + eta)).
  assert (Ht : 0 <= tenth) by (vm_compute; discriminate).
  assert (HA : Qabs (round64 (r - (1 # 2))) <= KA).
  { apply round64_bound. apply Qabs_Qle_condition. split; lra. }
  set (A := round64 (r - (1 # 2))) in *.
  assert (HB : Qabs (round64 (A * 2)) <= KB).
  { apply round64_bound. rewrite Qabs_Qmult.
    change (Qabs 2) with 2. lra. }
  set (B := round64 (A * 2)) in *.
  assert (Hct : 0 <= c * tenth) by (apply Qmult_le_0_compat; assumption).
  assert (HJ : Qabs (round64 (c * tenth))
               <= c * tenth + (c * tenth * u + eta)).
  { apply round64_bound. rewrite Qabs_pos by exact Hct. lra. }
  set (J := round64 (c * tenth)) in *.
  set (bJ := c * tenth + (c * tenth * u + eta)) in *.
  assert (HbJ : 0 <= bJ).
  { pose proof (Qabs_nonneg J). lra. }
  assert (HKB : 0 <= KB) by (vm_compute; discriminate).
  assert (HC : Qabs (round64 (B * J)) <= KB * bJ + (KB * bJ * u + eta)).
  { apply round64_bound. rewrite Qabs_Qmult.
    pose proof (Qabs_nonneg B). pose proof (Qabs_nonneg J).
    apply Qmult_le_compat_nonneg; split; assumption. }
  set (C := round64 (B * J)) in *.
  set (bC := KB * bJ + (KB * bJ * u + eta)) in *.
  assert (HD : Qabs (round64 (c + C) - (c + C)) <= (c + bC) * u + eta).
  { apply round64_near. eapply Qle_trans; [apply Qabs_triangle|].
    rewrite (Qabs_pos c) by exact Hc. lra. }
  set (D := round64 (c + C)) in *.
  assert (Htotal : Qabs (D - c) <= (c + bC) * u + eta + bC).
  { assert (E : D - c == (D - (c + C)) + C) by ring.
    rewrite E. eapply Qle_trans; [apply Qabs_triangle|]. lra. }
  eapply Qle_trans; [exact Htotal|].
  set (coef := u + KB * tenth * (1 + u) * (1 + u) * (1 + u)).
  set (rest := (KB * eta * (1 + u) + eta) * (1 + u) + eta).
  assert (Hsplit : (c + bC) * u + eta + bC == c * coef + rest)
    by (subst bC bJ coef rest; ring).
  assert (Hcoef : coef <= (1 # 10) + (1 # 2 ^ 50))
    by (vm_compute; discriminate).
  assert (Hrest : rest <= 1 # 2 ^ 1000) by (vm_compute; discriminate).
  rewrite Hsplit.
  assert (coef * c <= ((1 # 10) + (1 # 2 ^ 50)) * c)
    by (apply Qmult_le_compat_r; assumption).
  set (k50 := 1 # 2 ^ 50) in *. set (k1000 := 1 # 2 ^ 1000) in *. lra.
Qed.

(** C7, amended.  With jitter on, a draw in [0, 1) and a capped delay
    [c] that is not negative (and far below the overflow threshold),
    the delay computed is the nearest integer to a value within 10% of
    [c], up to the rounding of binary64 arithmetic: it is never
    negative and lies within [c/10 + 1/2 + c/2^50 + 2^-1000] of [c]. *)
Theorem calculateDelay_jitter_bounds (k : Z) (env : Env W) :
  let capped := Binary64.cappedDelay Math_pow config k in
  let delay :=
    fst (Binary64.calculateDelay Math_pow config random k env) in
  let slack := capped * (1 # 2 ^ 50) + (1 # 2 ^ 1000) in
  jitter config = true ->
  0 <= random (draws env) < 1 ->
  0 <= capped <= 2 ^ 1000 ->
  (0 <= delay)%Z
  ∧ capped - capped * (1 # 10) - (1 # 2) - slack < inject_Z delay
  ∧ inject_Z delay <= capped + capped * (1 # 10) + (1 # 2) + slack.
Proof.
  intros capped delay slack Hj Hr [Hc _]. subst delay slack.
  unfold Binary64.calculateDelay, Math_random. rewrite Hj.
  fold (Binary64.cappedDelay Math_pow config k). fold capped.
  cbn [fst].
  pose proof (jittered_near capped (random (draws env)) Hc Hr) as Hnear.
  set (x := round64 _) in *.
  apply Qabs_Qle_condition in Hnear.
  pose proof (Math_round_bounds x) as [Hb1 Hb2].
  set (k50 := 1 # 2 ^ 50) in *. set (k1000 := 1 # 2 ^ 1000) in *.
  assert (H50 : 0 <= capped * k50)
    by (apply Qmult_le_0_compat; [exact Hc | discriminate]).
  assert (H1000 : 0 <= k1000) by discriminate.
  destruct (Z.max_spec 0 (Math_round x)) as [[Hlt ->] | [Hge ->]].
  - split; [lia|]. split; lra.
  - split; [lia|]. split; [|change (inject_Z 0) with 0; lra].
    change (inject_Z 0) with 0.
    assert (inject_Z (Math_round x) <= 0)
      by (change 0 with (inject_Z 0); rewrite <- Zle_Qle; exact Hge).
    lra.
Qed.

End Jitter.


Section Exact.

Context {W : Type}.
Variable Math_pow : Q -> Z -> Q.
Variable config : RetryConfig.
Variable random : nat -> Q.


End Exact.

End Binary64Facts.

#[local] Close Scope Q_scope.

(** * One pass through the loop body *)

Lemma invocations_app l1 l2 :
  invocations (l1 ++ l2) = (invocations l1 + invocations l2)%nat.
Proof. unfold invocations. now rewrite List.filter_app, length_app. Qed.

Lemma sleeps_app l1 l2 : sleeps (l1 ++ l2) = sleeps l1 ++ sleeps l2.
Proof. apply flat_map_app. Qed.

Lemma message_toError e :
  message (toError e) = Some (VString (failureMessage e)).
Proof. destruct e; reflexivity. Qed.

Lemma instanceofError_toError e : instanceofError (toError e) = true.
Proof. destruct e; reflexivity. Qed.

Lemma toError_instance e : instanceofError e = true -> toError e = e.
Proof. unfold toError. now intros ->. Qed.

(** For an [Error] instance, being a retryable failure is what
    [isRetryableError] says of the instance itself. *)
Lemma retryableFailure_instance e :
  instanceofError e = true ->
  retryableFailure e ↔ isRetryableError e = true.
Proof. intros H. unfold retryableFailure. now rewrite toError_instance. Qed.

(** A thrown plain object is judged by the [Error] made from it, whose
    message is [[object Object]]. *)
Lemma retryableFailure_plain_object :
  isRetryableError (VObject {[ "message" := VString "timeout" ]}) = true
  ∧ ¬ retryableFailure (VObject {[ "message" := VString "timeout" ]}).
Proof. split; [reflexivity | discriminate]. Qed.

Section Body.

Context {T W : Type}.
Variable config : RetryConfig.
Variable random : nat -> Q.
Variable operation : W -> Outcome T * W.
Variable context : option (gmap string JsValue).

Lemma calculateDelay_env a (env : Env W) :
  let env' := snd (calculateDelay config random a env) in
  world env' = world env ∧ trace env' = trace env
  ∧ draws env' = if jitter config then S (draws env) else draws env.
Proof.
  unfold calculateDelay, bind, ret, Math_random.
  destruct (jitter config); repeat split.
Qed.

Lemma loopBody_resolved st env v w' :
  operation (world env) = (Resolved v, w') ->
  ∃ env',
    loopBody config random operation context st env
    = inl (Returned v,
           {| attempt := attempt st + 1; totalDelay := totalDelay st;
              errors := errors st |}, env')
    ∧ world env' = w' ∧ draws env' = draws env
    ∧ invocations (trace env') = S (invocations (trace env))
    ∧ sleeps (trace env') = sleeps (trace env).
Proof.
  intros Hop. unfold loopBody.
  unfold bind, logger_debug, logger_info, emit, call, ret.
  cbn [world draws trace attempt totalDelay errors]. rewrite Hop.
  destruct (1 <? attempt st + 1)%Z; eexists; (split; [reflexivity|]);
    cbn [world draws trace]; rewrite ?invocations_app, ?sleeps_app; cbn;
    repeat split; try lia; now rewrite ?app_nil_r.
Qed.

Lemma loopBody_gives_up st env e w' :
  operation (world env) = (Rejected e, w') ->
  (maxAttempts config <= attempt st + 1)%Z
  ∨ isRetryableError (toError e) = false ->
  let st' := {| attempt := attempt st + 1; totalDelay := totalDelay st;
                errors := errors st ++ [toError e] |} in
  ∃ env',
    loopBody config random operation context st env
    = inl (Thrown (if instanceofEmailError e
                   then retryError st' e context else toError e),
           st', env')
    ∧ world env' = w' ∧ draws env' = draws env
    ∧ invocations (trace env') = S (invocations (trace env))
    ∧ sleeps (trace env') = sleeps (trace env).
Proof.
  intros Hop Hstop st'. unfold loopBody.
  unfold bind, logger_debug, logger_warn, emit, call, ret.
  cbn [world draws trace attempt totalDelay errors]. rewrite Hop.
  fold (toError e).
  assert (negb (maxAttempts config <=? attempt st + 1)%Z
          && isRetryableError (toError e) = false) as ->.
  { destruct Hstop as [H | H].
    - apply Z.leb_le in H. now rewrite H.
    - rewrite H. apply andb_false_r. }
  cbn [negb]. fold st'.
  destruct (instanceofEmailError e); eexists; (split; [reflexivity|]);
    cbn [world draws trace]; rewrite ?invocations_app, ?sleeps_app; cbn;
    repeat split; try lia; now rewrite ?app_nil_r.
Qed.

Lemma loopBody_retries st env e w' :
  operation (world env) = (Rejected e, w') ->
  (attempt st + 1 < maxAttempts config)%Z ->
  isRetryableError (toError e) = true ->
  ∃ env0 env' : Env W,
    let d := fst (calculateDelay config random (attempt st + 1) env0) in
    draws env0 = draws env
    ∧ loopBody config random operation context st env
      = inr ({| attempt := attempt st + 1; totalDelay := totalDelay st + d;
                errors := errors st ++ [toError e] |}, env')
    ∧ world env' = w'
    ∧ draws env' = (if jitter config then S (draws env) else draws env)
    ∧ invocations (trace env') = S (invocations (trace env))
    ∧ sleeps (trace env') = sleeps (trace env) ++ [d].
Proof.
  intros Hop Hlt Hretry. unfold loopBody.
  unfold bind at 1. unfold logger_debug at 1. unfold emit at 1.
  unfold call. cbn [world draws trace attempt totalDelay errors].
  rewrite Hop. fold (toError e). rewrite Hretry.
  assert ((maxAttempts config <=? attempt st + 1)%Z = false) as ->
      by (apply Z.leb_gt; lia).
  cbn [negb andb]. unfold logger_warn, emit.
  cbn [world draws trace attempt totalDelay errors].
  match goal with
  | |- context [calculateDelay (W:=W) config random _ ?e] => set (env0 := e)
  end.
  destruct (calculateDelay_env (attempt st + 1) env0) as (Hw & Ht & Hd).
  destruct (calculateDelay config random (attempt st + 1) env0)
    as [d env1] eqn:Hcalc.
  cbn [fst snd] in *. unfold bind, logger_debug, sleep, emit.
  cbn [world draws trace attempt totalDelay errors].
  exists env0. eexists. cbn zeta. rewrite Hcalc. cbn [fst].
  split; [reflexivity|]. split; [reflexivity|].
  cbn [world draws trace]. rewrite Hw, Hd, Ht. subst env0.
  cbn [world draws trace]. rewrite ?invocations_app, ?sleeps_app. cbn.
  repeat split; try lia. now rewrite !app_nil_r.
Qed.

(** * The loop *)

Lemma loop_exit fuel st env :
  ¬ (attempt st < maxAttempts config)%Z ->
  loop config random operation context (S fuel) st env
  = Some (ThrownAfterLoop (List.last (errors st) VUndefined), st, env).
Proof.
  intros H. cbn [loop]. apply Z.ltb_nlt in H. now rewrite H.
Qed.

Lemma loop_enter fuel st env :
  (attempt st < maxAttempts config)%Z ->
  loop config random operation context (S fuel) st env
  = match loopBody config random operation context st env with
    | inl exit => Some exit
    | inr (st', env') => loop config random operation context fuel st' env'
    end.
Proof.
  intros H. cbn [loop]. apply Z.ltb_lt in H. now rewrite H.
Qed.

Lemma Rejects_snoc w es e w1 :
  Rejects operation w (es ++ [e]) w1 ->
  ∃ w', Rejects operation w es w' ∧ operation w' = (Rejected e, w1).
Proof.
  revert w. induction es as [|x es IH]; intros w H.
  - inversion H as [|? ? ? ? ? Hop Hrest]; subst.
    inversion Hrest; subst. exists w. split; [constructor | exact Hop].
  - inversion H as [|? ? ? ? ? Hop Hrest]; subst.
    destruct (IH _ Hrest) as (w2 & Hr & Hlast).
    exists w2. split; [econstructor; eassumption | exact Hlast].
Qed.

(** While the failures are retryable and attempts remain, each failure
    costs one iteration. *)
Lemma loop_prefix es : ∀ st env w1,
  Rejects operation (world env) es w1 ->
  Forall retryableFailure es ->
  (attempt st + Z.of_nat (length es) < maxAttempts config)%Z ->
  ∃ st' env',
    (∀ fuel,
       loop config random operation context (length es + fuel) st env
       = loop config random operation context fuel st' env')
    ∧ attempt st' = (attempt st + Z.of_nat (length es))%Z
    ∧ errors st' = errors st ++ map toError es
    ∧ world env' = w1
    ∧ invocations (trace env')
      = (invocations (trace env) + length es)%nat
    ∧ length (sleeps (trace env'))
      = (length (sleeps (trace env)) + length es)%nat.
Proof.
  induction es as [|e es IH]; intros st env w1 Hrej Hall Hlt.
  - inversion Hrej; subst. exists st, env. cbn [length map Nat.add].
    rewrite Z.add_0_r, app_nil_r, !Nat.add_0_r. repeat split.
  - inversion Hrej as [|? ? w' ? ? Hop Hrest]; subst.
    inversion Hall as [|? ? He Hall']; subst.
    cbn [length] in Hlt.
    destruct (loopBody_retries st env e w') as (env0 & env1 & H);
      [exact Hop | lia | exact He |].
    cbn zeta in H. destruct H as (_ & Hbody & Hw & _ & Hi & Hs).
    set (d := fst (calculateDelay config random (attempt st + 1) env0))
      in *.
    set (st1 := {| attempt := attempt st + 1;
                   totalDelay := totalDelay st + d;
                   errors := errors st ++ [toError e] |}) in *.
    destruct (IH st1 env1 w1)
      as (st' & env' & Hloop & Ha & He' & Hw' & Hi' & Hs').
    { now rewrite Hw. }
    { exact Hall'. }
    { cbn [attempt st1]. lia. }
    exists st', env'. repeat split.
    + intros fuel. cbn [length Nat.add].
      rewrite loop_enter by lia. rewrite Hbody. apply Hloop.
    + rewrite Ha. cbn [attempt st1 length]. lia.
    + rewrite He'. cbn [errors st1 map]. now rewrite <- app_assoc.
    + exact Hw'.
    + rewrite Hi', Hi. cbn [length]. lia.
    + rewrite Hs', Hs, length_app. cbn [length]. lia.
Qed.




Lemma execute_after_prefix es w w1 :
  Rejects operation w es w1 ->
  Forall retryableFailure es ->
  (Z.of_nat (length es) < maxAttempts config)%Z ->
  ∃ st env fuel,
    execute config random operation context w
    = loop config random operation context (S fuel) st env
    ∧ attempt st = Z.of_nat (length es)
    ∧ errors st = map toError es
    ∧ world env = w1
    ∧ invocations (trace env) = length es
    ∧ length (sleeps (trace env)) = length es.
Proof.
  intros Hrej Hall Hlt.
  destruct (loop_prefix es initialState (initialEnv w) w1)
    as (st & env & Hloop & Ha & He & Hw & Hi & Hs);
    [exact Hrej | exact Hall | cbn [initialState attempt]; lia |].
  exists st, env, (Z.to_nat (maxAttempts config) - length es)%nat.
  unfold execute. rewrite <- Hloop.
  split; [f_equal; lia|]. repeat split; assumption.
Qed.

(** The attempt on which [execute] stops retrying: the failure is the
    last one allowed, or it is not retryable. *)
Lemma execute_gives_up es e w w1 :
  Rejects operation w (es ++ [e]) w1 ->
  Forall retryableFailure es ->
  (Z.of_nat (S (length es)) <= maxAttempts config)%Z ->
  (Z.of_nat (S (length es)) = maxAttempts config
   ∨ isRetryableError (toError e) = false) ->
  ∃ st env,
    execute config random operation context w
    = Some (Thrown (if instanceofEmailError e
                    then retryError st e context else toError e),
            st, env)
    ∧ attempt st = Z.of_nat (S (length es))
    ∧ errors st = map toError (es ++ [e])
    ∧ world env = w1
    ∧ invocations (trace env) = S (length es)
    ∧ length (sleeps (trace env)) = length es.
Proof.
  intros Hrej Hall Hle Hstop.
  apply Rejects_snoc in Hrej as (w' & Hrej & Hop).
  destruct (execute_after_prefix es w w' Hrej Hall)
    as (st & env & fuel & -> & Ha & He & Hw & Hi & Hs); [lia|].
  rewrite loop_enter by lia. rewrite <- Hw in Hop.
  destruct (loopBody_gives_up st env e w1 Hop) as (env' & -> & H).
  { destruct Hstop; [left; lia | now right]. }
  destruct H as (Hw' & _ & Hi' & Hs').
  eexists _, env'. split; [reflexivity|].
  cbn [attempt errors]. rewrite He, Ha, map_app, Hi', Hi, Hs', Hs.
  repeat split; [lia | exact Hw'].
Qed.

End Body.

(** * What one call of [execute] does *)

Lemma spread_lookup target source key :
  spread target source !! key
  = match getField source key with
    | Some v => Some v
    | None => target !! key
    end.
Proof.
  destruct source as [fields|]; cbn; [|reflexivity].
  destruct (fields !! key) as [v|] eqn:E.
  - now apply lookup_union_Some_l.
  - now apply lookup_union_r.
Qed.

Lemma allErrors_toError es :
  allErrors (map toError es)
  = VArray (map (λ e, VString (failureMessage e)) es).
Proof.
  unfold allErrors. f_equal. rewrite map_map. apply map_ext.
  intros e. now rewrite message_toError.
Qed.

Section Executor.

Context {T W : Type}.
Variable config : RetryConfig.
Variable random : nat -> Q.
Variable operation : W -> Outcome T * W.
Variable context : option (gmap string JsValue).

(** C9. If the first [k-1] calls of the operation fail with retryable
    errors and the [k]-th succeeds, with [k <= maxAttempts], then
    [execute] calls the operation exactly [k] times and returns the value
    of the [k]-th call.  Here [k = length es + 1]. *)
Theorem execute_recovers (es : list JsValue) (w w1 w2 : W) (v : T) :
  Rejects operation w es w1 ->
  Forall retryableFailure es ->
  operation w1 = (Resolved v, w2) ->
  (Z.of_nat (S (length es)) <= maxAttempts config)%Z ->
  ∃ st env,
    execute config random operation context w
    = Some (Returned v, st, env)
    ∧ invocations (trace env) = S (length es)
    ∧ attempt st = Z.of_nat (S (length es))
    ∧ world env = w2.
Proof.
  intros Hrej Hall Hop Hle.
  destruct (execute_after_prefix config random operation context
              es w w1 Hrej Hall)
    as (st & env & fuel & -> & Ha & He & Hw & Hi & Hs); [lia|].
  rewrite loop_enter by lia. rewrite <- Hw in Hop.
  destruct (loopBody_resolved config random operation context
              st env v w2 Hop) as (env' & -> & Hw' & _ & Hi' & _).
  eexists _, env'. split; [reflexivity|].
  cbn [attempt]. rewrite Hi', Hi, Ha. repeat split; [lia | exact Hw'].
Qed.

(** C2. When [execute] stops retrying on a failure that is an
    [EmailError], it throws a new error of the same class whose message
    is "Operation failed after k attempts: " followed by the original
    message, whose cause is the original failure, and whose context is
    the merge of [attempts]/[allErrors], the caller's context and the
    failure's own context; on a shared key the failure's own context
    wins, then the caller's. *)
Theorem execute_rewraps_classified (es : list JsValue) (cls : ErrorClass)
        (msg : string) (cause : JsValue)
        (ectx : option (gmap string JsValue)) (w w1 : W) :
  let e := VEmailError cls msg cause ectx in
  let k := Z.of_nat (S (length es)) in
  Rejects operation w (es ++ [e]) w1 ->
  Forall retryableFailure es ->
  (k <= maxAttempts config)%Z ->
  k = maxAttempts config ∨ retryable cls = false ->
  ∃ st env merged,
    execute config random operation context w
    = Some (Thrown
              (VEmailError cls
                 ("Operation failed after " +:+ Js.numberToString k
                    +:+ " attempts: " +:+ msg)
                 e (Some merged)),
            st, env)
    ∧ ∀ key,
        merged !! key
        = match getField ectx key with
          | Some v => Some v
          | None =>
              match getField context key with
              | Some v => Some v
              | None =>
                  (<["attempts" := VNumber k]>
                     (<["allErrors" :=
                          VArray (map (λ x, VString (failureMessage x))
                                      (es ++ [e]))]> ∅)
                   : gmap string JsValue) !! key
              end
          end.
Proof.
  intros e k Hrej Hall Hle Hstop.
  destruct (execute_gives_up config random operation context
              es e w w1 Hrej Hall Hle)
    as (st & env & Hexec & Ha & He & _); [exact Hstop|].
  cbn [instanceofEmailError e retryError] in Hexec.
  rewrite Ha, He in Hexec. fold k e in Hexec.
  eexists st, env, _. split; [exact Hexec|].
  intros key. rewrite !spread_lookup. now rewrite allErrors_toError.
Qed.

(** C1, amended. If all [N = maxAttempts] calls of the operation fail
    with retryable errors, [execute] calls it exactly [N] times and then
    throws.  When the last failure is an [EmailError] and neither the
    caller's context nor that failure's own context has a key [attempts]
    or [allErrors], the context of the thrown error has [attempts = N]
    and [allErrors] = the [N] failure messages, oldest first.  When the
    last failure is not an [EmailError], the thrown error carries no
    context. *)
Theorem execute_exhausts (es : list JsValue) (e : JsValue) (w w1 : W) :
  let n := length (es ++ [e]) in
  Rejects operation w (es ++ [e]) w1 ->
  Forall retryableFailure (es ++ [e]) ->
  maxAttempts config = Z.of_nat n ->
  ∃ st env error,
    execute config random operation context w
    = Some (Thrown error, st, env)
    ∧ invocations (trace env) = n
    ∧ (instanceofEmailError e = true ->
       (∀ key, key = "attempts" ∨ key = "allErrors" ->
               getField context key = None
               ∧ getField (Errors.context e) key = None) ->
       ∃ fields msgs,
         Errors.context error = Some fields
         ∧ fields !! "attempts" = Some (VNumber (Z.of_nat n))
         ∧ fields !! "allErrors" = Some (VArray (map VString msgs))
         ∧ msgs = map failureMessage (es ++ [e])
         ∧ length msgs = n)
    ∧ (instanceofEmailError e = false ->
       error = toError e ∧ Errors.context error = None).
Proof.
  intros n Hrej Hall HN. subst n.
  rewrite length_app, Nat.add_comm in *. cbn [length Nat.add] in *.
  apply Forall_app in Hall as [Hall _].
  destruct (execute_gives_up config random operation context
              es e w w1 Hrej Hall)
    as (st & env & Hexec & Ha & He & _ & Hi & _); [lia | left; lia |].
  eexists st, env, _. split; [exact Hexec|]. split; [exact Hi|]. split.
  - intros Hcls Hfree. rewrite Hcls.
    destruct e as [| | | | | | | |cls msg cause ectx| | |]; try discriminate.
    cbn [retryError Errors.context] in *.
    eexists _, (map failureMessage (es ++ [_])).
    split; [reflexivity|]. rewrite !spread_lookup, Ha, He.
    destruct (Hfree "attempts") as [-> ->]; [now left|].
    destruct (Hfree "allErrors") as [-> ->]; [now right|].
    rewrite allErrors_toError, map_map.
    repeat split. rewrite length_map, length_app. cbn. lia.
  - intros Hcls. rewrite Hcls. split; [reflexivity|].
    destruct e; try discriminate; reflexivity.
Qed.

(** C6, amended. When [execute] stops retrying on a failure that is not
    an [EmailError], it throws that failure itself if it is an [Error]
    instance, and otherwise a new [Error] whose message is
    [String(failure)]; no attempt context is attached in either case.
    The failures are values on which String() returns. *)
Theorem execute_rethrows_unclassified (es : list JsValue) (e : JsValue)
        (w w1 : W) :
  let k := Z.of_nat (S (length es)) in
  instanceofEmailError e = false ->
  Forall (λ x, Js.stringifiable x = true) (es ++ [e]) ->
  Rejects operation w (es ++ [e]) w1 ->
  Forall retryableFailure es ->
  (k <= maxAttempts config)%Z ->
  k = maxAttempts config ∨ isRetryableError (toError e) = false ->
  ∃ st env error,
    execute config random operation context w
    = Some (Thrown error, st, env)
    ∧ error = (if instanceofError e then e else VError (Js.String e))
    ∧ Errors.context error = None
    ∧ invocations (trace env) = S (length es).
Proof.
  intros k Hcls _ Hrej Hall Hle Hstop.
  destruct (execute_gives_up config random operation context
              es e w w1 Hrej Hall Hle Hstop)
    as (st & env & Hexec & _ & _ & _ & Hi & _).
  rewrite Hcls in Hexec. eexists st, env, _. split; [exact Hexec|].
  split; [reflexivity|]. split; [|exact Hi].
  destruct e; try discriminate; reflexivity.
Qed.

(** Inside the loop, with attempts left, the loop ends by an exit of the
    body. *)
Lemma loop_exits_inside fuel : ∀ st env,
  (attempt st < maxAttempts config)%Z ->
  (Z.to_nat (maxAttempts config - attempt st) <= fuel)%nat ->
  ∃ exit st' env',
    loop config random operation context fuel st env
    = Some (exit, st', env')
    ∧ (∀ error, exit ≠ ThrownAfterLoop error)
    ∧ (attempt st < attempt st' <= maxAttempts config)%Z.
Proof.
  induction fuel as [|fuel IH]; intros st env Hlt Hfuel; [lia|].
  rewrite loop_enter by exact Hlt.
  destruct (operation (world env)) as [[v | e] w'] eqn:Hop.
  - destruct (loopBody_resolved config random operation context
                st env v w' Hop) as (env' & -> & _).
    eexists _, _, env'. split; [reflexivity|].
    split; [discriminate | cbn [attempt]; lia].
  - destruct (Z.le_gt_cases (maxAttempts config) (attempt st + 1))
      as [Hlast | Hmore];
      [|destruct (isRetryableError (toError e)) eqn:Hretry].
    + destruct (loopBody_gives_up config random operation context
                  st env e w' Hop (or_introl Hlast)) as (env' & -> & _).
      eexists _, _, env'. split; [reflexivity|].
      split; [discriminate | cbn [attempt]; lia].
    + destruct (loopBody_retries config random operation context
                  st env e w' Hop Hmore Hretry)
        as (env0 & env' & _ & -> & _).
      match goal with
      | |- context [loop _ _ _ _ fuel ?s env'] =>
          destruct (IH s env') as (exit & st' & env'' & -> & Hin & Hat)
      end; [cbn [attempt]; lia | cbn [attempt]; lia |].
      exists exit, st', env''. split; [reflexivity|].
      split; [exact Hin | cbn [attempt] in Hat; lia].
    + destruct (loopBody_gives_up config random operation context
                  st env e w' Hop (or_intror Hretry)) as (env' & -> & _).
      eexists _, _, env'. split; [reflexivity|].
      split; [discriminate | cbn [attempt]; lia].
Qed.

(** C10. With [maxAttempts >= 1], whatever the operation does,
    [execute] finishes, and it does so by the [return] or by a [throw]
    inside the loop body, never by the [throw] after the loop. *)
Theorem execute_exits_inside_loop (w : W) :
  (1 <= maxAttempts config)%Z ->
  ∃ exit st env,
    execute config random operation context w = Some (exit, st, env)
    ∧ (∀ error, exit ≠ ThrownAfterLoop error)
    ∧ (1 <= attempt st <= maxAttempts config)%Z.
Proof.
  intros HN.
  destruct (loop_exits_inside (S (Z.to_nat (maxAttempts config)))
                              initialState (initialEnv w))
    as (exit & st & env & H & Hin & Hat);
    [cbn [initialState attempt]; lia | cbn [initialState attempt]; lia |].
  exists exit, st, env. split; [exact H|]. split; [exact Hin|].
  cbn [initialState attempt] in Hat. lia.
Qed.

(** With [maxAttempts <= 0] the operation is never called and the
    trailing [throw] raises [undefined]. *)
Lemma execute_without_attempts (w : W) :
  (maxAttempts config <= 0)%Z ->
  execute config random operation context w
  = Some (ThrownAfterLoop VUndefined, initialState, initialEnv w).
Proof.
  intros HN. unfold execute. rewrite loop_exit; [reflexivity|].
  cbn [initialState attempt]. lia.
Qed.

End Executor.

Section Backoff.

Context {T W : Type}.
Variable config : RetryConfig.
Variable random : nat -> Q.
Variable operation : W -> Outcome T * W.
Variable context : option (gmap string JsValue).
Hypothesis no_jitter : jitter config = false.



End Backoff.

(** * Worked executions *)

Section Worked.

Import Scenarios.

Lemma execute_recovers_witness :
  ∃ st env,
    execute RetryConfigs.template lowestDraw
            (rejectsThenResolves 1 timedOut 42) None 0%nat
    = Some (Returned 42%Z, st, env)
    ∧ invocations (trace env) = 2%nat
    ∧ attempt st = 2%Z
    ∧ world env = 2%nat.
Proof.
  apply (execute_recovers RetryConfigs.template lowestDraw
           (rejectsThenResolves 1 timedOut 42) None [timedOut]
           0%nat 1%nat 2%nat 42%Z).
  - repeat econstructor.
  - repeat constructor.
  - reflexivity.
  - cbn. lia.
Defined.

Lemma execute_rewraps_classified_witness :
  ∃ st env merged,
    execute RetryConfigs.template lowestDraw (alwaysRejects connectionDown)
            (Some {[ "host" := VString "caller" ]}) 0%nat
    = Some (Thrown
              (VEmailError SMTPConnectionError
                 "Operation failed after 2 attempts: down"
                 connectionDown (Some merged)),
            st, env)
    ∧ merged !! "host" = Some (VString "smtp.example.com")
    ∧ merged !! "attempts" = Some (VNumber 2).
Proof.
  destruct (execute_rewraps_classified RetryConfigs.template lowestDraw
              (alwaysRejects connectionDown)
              (Some {[ "host" := VString "caller" ]})
              [connectionDown] SMTPConnectionError "down" VUndefined
              (Some {[ "host" := VString "smtp.example.com" ]})
              0%nat 2%nat)
    as (st & env & merged & Hexec & Hmerged).
  - repeat econstructor.
  - repeat constructor.
  - cbn. lia.
  - left. reflexivity.
  - exists st, env, merged. split; [exact Hexec|].
    rewrite !Hmerged. split; reflexivity.
Defined.

(** The first scenario of the specification: three retryable failures,
    then success, under a doubling policy. *)
Example three_failures_then_success :
  ∃ st env,
    execute doubling lowestDraw (rejectsThenResolves 3 timedOut 7) None
            0%nat
    = Some (Returned 7%Z, st, env)
    ∧ invocations (trace env) = 4%nat
    ∧ sleeps (trace env) = [100; 200; 400]%Z
    ∧ totalDelay st = 700%Z.
Proof.
  eexists _, _. split; [vm_compute; reflexivity|]. repeat split.
Qed.

(** C1, against the claim: two retryable failures that are plain [Error]s
    exhaust a two-attempt policy, and the error thrown is the plain
    [Error], which has no context at all. *)
Lemma execute_exhausts_counterexample :
  Rejects (alwaysRejects timedOut) 0%nat [timedOut; timedOut] 2%nat
  ∧ Forall retryableFailure [timedOut; timedOut]
  ∧ ∃ st env,
      execute RetryConfigs.template lowestDraw (alwaysRejects timedOut)
              None 0%nat
      = Some (Thrown (VError "ETIMEDOUT"), st, env)
      ∧ invocations (trace env) = 2%nat
      ∧ getField (Errors.context (VError "ETIMEDOUT")) "attempts" = None
      ∧ getField (Errors.context (VError "ETIMEDOUT")) "allErrors" = None.
Proof.
  split; [repeat econstructor|]. split; [repeat constructor|].
  eexists _, _. split; [vm_compute; reflexivity|]. repeat split.
Qed.

Lemma execute_exhausts_witness :
  ∃ st env error,
    execute RetryConfigs.template lowestDraw (alwaysRejects connectionDown)
            None 0%nat
    = Some (Thrown error, st, env)
    ∧ invocations (trace env) = 2%nat
    ∧ ∃ fields,
        Errors.context error = Some fields
        ∧ fields !! "attempts" = Some (VNumber 2)
        ∧ fields !! "allErrors"
          = Some (VArray [VString "down"; VString "down"]).
Proof.
  destruct (execute_exhausts RetryConfigs.template lowestDraw
              (alwaysRejects connectionDown) None
              [connectionDown] connectionDown 0%nat 2%nat)
    as (st & env & error & Hexec & Hcalls & Hcls & _).
  - repeat econstructor.
  - repeat constructor.
  - reflexivity.
  - destruct Hcls as (fields & msgs & Hctx & Hatt & Hall & -> & _).
    + reflexivity.
    + intros key [-> | ->]; split; reflexivity.
    + exists st, env, error. split; [exact Hexec|]. split; [exact Hcalls|].
      exists fields. split; [exact Hctx|]. split; [exact Hatt | exact Hall].
Defined.

(** C6, against the claim: a thrown string is not what [execute] throws
    on; it throws an [Error] made from the string. *)
Lemma execute_rethrows_counterexample :
  instanceofEmailError (VString "boom") = false
  ∧ ∃ st env,
      execute RetryConfigs.template lowestDraw
              (alwaysRejects (VString "boom")) None 0%nat
      = Some (Thrown (VError "boom"), st, env)
      ∧ invocations (trace env) = 1%nat
      ∧ VError "boom" ≠ VString "boom".
Proof.
  split; [reflexivity|].
  eexists _, _. split; [vm_compute; reflexivity|].
  split; [reflexivity | discriminate].
Qed.

Lemma execute_rethrows_unclassified_witness :
  ∃ st env error,
    execute RetryConfigs.template lowestDraw
            (alwaysRejects (VDecimal false 5 0)) None 0%nat
    = Some (Thrown error, st, env)
    ∧ error = VError "0.5"
    ∧ Errors.context error = None
    ∧ invocations (trace env) = 1%nat.
Proof.
  apply (execute_rethrows_unclassified RetryConfigs.template lowestDraw
           (alwaysRejects (VDecimal false 5 0)) None []
           (VDecimal false 5 0) 0%nat 1%nat).
  - reflexivity.
  - repeat constructor.
  - repeat econstructor.
  - constructor.
  - cbn. lia.
  - right. reflexivity.
Defined.

Lemma execute_exits_inside_loop_witness :
  ∃ exit st env,
    execute RetryConfigs.template lowestDraw (alwaysRejects timedOut)
            None 0%nat
    = Some (exit, st, env)
    ∧ (∀ error, exit ≠ ThrownAfterLoop error)
    ∧ (1 <= attempt st <= 2)%Z.
Proof.
  apply (execute_exits_inside_loop RetryConfigs.template lowestDraw
           (alwaysRejects timedOut) None 0%nat).
  cbn. lia.
Defined.



(** C7, against the claim: with a capped delay of 6 ms and the lowest
    draw, the delay computed is 5 ms, below 90% of 6 ms. *)
Lemma calculateDelay_jitter_counterexample :
  let capped :=
    Binary64.cappedDelay Binary64.roundedPower sixMilliseconds 1 in
  let delay :=
    fst (Binary64.calculateDelay Binary64.roundedPower sixMilliseconds
                                 lowestDraw 1 (initialEnv 0%nat)) in
  (0 <= lowestDraw 0%nat < 1)%Q
  ∧ (capped == 6)%Q
  ∧ delay = 5%Z
  ∧ ¬ (capped - capped * (1 # 10) <= inject_Z delay)%Q.
Proof.
  cbn zeta. split; [split; reflexivity || discriminate|].
  split; [vm_compute; reflexivity|].
  split; [vm_compute; reflexivity|]. vm_compute. intros H. apply H.
  reflexivity.
Qed.

(** With the highest draw and a capped delay just below 45/11 the
    additions round up to 4.5 and the delay is 5 ms, above
    [c + c/10 + 1/2]: the bound of C7 needs its allowance for
    rounding. *)
Example calculateDelay_rounds_upwards :
  let capped := Binary64.cappedDelay Binary64.roundedPower elevenths 1 in
  let delay :=
    fst (Binary64.calculateDelay Binary64.roundedPower elevenths
                                 highestDraw 1 (initialEnv 0%nat)) in
  delay = 5%Z
  ∧ (capped + capped * (1 # 10) + (1 # 2) < inject_Z delay)%Q.
Proof.
  cbn zeta. split; vm_compute; reflexivity.
Qed.

Lemma calculateDelay_jitter_bounds_witness :
  let capped := Binary64.cappedDelay Binary64.roundedPower elevenths 1 in
  let delay :=
    fst (Binary64.calculateDelay Binary64.roundedPower elevenths
                                 highestDraw 1 (initialEnv 0%nat)) in
  let slack := (capped * (1 # 2 ^ 50) + (1 # 2 ^ 1000))%Q in
  (0 <= delay)%Z
  ∧ (capped - capped * (1 # 10) - (1 # 2) - slack < inject_Z delay)%Q
  ∧ (inject_Z delay <= capped + capped * (1 # 10) + (1 # 2) + slack)%Q.
Proof.
  apply (calculateDelay_jitter_bounds Binary64.roundedPower elevenths
           highestDraw 1 (initialEnv 0%nat)).
  - reflexivity.
  - split; vm_compute; congruence.
  - split; vm_compute; congruence.
Defined.

End Worked.

(** * Accounting of one execution *)

Lemma logged_app level l1 l2 :
  logged level (l1 ++ l2) = logged level l1 ++ logged level l2.
Proof. apply flat_map_app. Qed.

Ltac body_side Hop :=
  cbn [world draws trace];
  rewrite ?invocations_app, ?sleeps_app, ?logged_app;
  cbn [invocations sleeps logged List.filter flat_map length app sameLevel];
  rewrite ?app_nil_r, ?length_app; cbn [length];
  first [ exact Hop | reflexivity | lia | assumption
        | left; assumption | right; assumption ].

Section Accounting.

Context {T W : Type}.
Variable config : RetryConfig.
Variable random : nat -> Q.
Variable operation : W -> Outcome T * W.
Variable context : option (gmap string JsValue).

Lemma loopBody_step st env :
  BodyStep config random operation context st env
    (loopBody config random operation context st env).
Proof.
  unfold loopBody.
  unfold bind at 1. unfold logger_debug at 1. unfold emit at 1.
  unfold call. cbn [world draws trace attempt totalDelay errors].
  destruct (operation (world env)) as [[v | e] w'] eqn:Hop.
  - unfold logger_info, emit, ret.
    destruct (1 <? attempt st + 1)%Z eqn:Hretry;
      cbn [world draws trace];
      eapply step_resolved; rewrite ?Hretry; body_side Hop.
  - fold (toError e). unfold logger_warn, emit.
    cbn [world draws trace attempt totalDelay errors].
    destruct (Z.le_gt_cases (maxAttempts config) (attempt st + 1))
      as [Hlast | Hmore];
      [|destruct (isRetryableError (toError e)) eqn:Hretry].
    + apply Z.leb_le in Hlast as Hlast'. rewrite Hlast'. cbn [negb andb].
      pose proof (step_gives_up config random operation context st env e)
        as H. cbn zeta in H.
      destruct (instanceofEmailError e); eapply H; body_side Hop.
    + assert ((maxAttempts config <=? attempt st + 1)%Z = false) as ->
          by (apply Z.leb_gt; lia).
      cbn [negb andb].
      match goal with
      | |- context [calculateDelay (W:=W) config random _ ?e] =>
          set (env0 := e)
      end.
      destruct (calculateDelay_env config random (attempt st + 1) env0)
        as (Hw & Ht & Hd).
      pose proof (step_retries config random operation context st env e env0)
        as H. cbn zeta in H.
      destruct (calculateDelay config random (attempt st + 1) env0)
        as [d env1] eqn:Hcalc.
      cbn [fst snd] in *. unfold bind, logger_debug, sleep, emit.
      cbn [world draws trace attempt totalDelay errors].
      eapply H; rewrite ?Hw, ?Hd, ?Ht; subst env0; body_side Hop.
    + rewrite andb_false_r. cbn [negb].
      pose proof (step_gives_up config random operation context st env e)
        as H. cbn zeta in H.
      destruct (instanceofEmailError e); eapply H; body_side Hop.
Qed.

(** The books of the loop: what has been slept, drawn, logged and
    recorded when it ends, counted from where it started. *)
Lemma loop_accounting fuel : ∀ st env exit st' env',
  loop config random operation context fuel st env
  = Some (exit, st', env') ->
  ∃ ds : list Z,
    sleeps (trace env') = sleeps (trace env) ++ ds
    ∧ Forall (λ d, 0 <= d)%Z ds
    ∧ totalDelay st' = (totalDelay st + sumDelays ds)%Z
    ∧ draws env'
      = (draws env + (if jitter config then length ds else 0))%nat
    ∧ match exit with
      | ThrownAfterLoop _ =>
          ds = [] ∧ st' = st ∧ env' = env
          ∧ ¬ (attempt st < maxAttempts config)%Z
      | Returned _ =>
          attempt st' = (attempt st + Z.of_nat (length ds) + 1)%Z
          ∧ (attempt st' <= maxAttempts config)%Z
          ∧ invocations (trace env')
            = (invocations (trace env) + length ds + 1)%nat
          ∧ length (errors st') = (length (errors st) + length ds)%nat
          ∧ logged info (trace env')
            = logged info (trace env)
              ++ (if (1 <? attempt st')%Z
                  then [("Operation succeeded after retry",
                         spread
                           (<["attempt" := VNumber (attempt st')]>
                              (<["totalDelay" := VNumber (totalDelay st')]>
                                 ∅))
                           context)]
                  else [])
          ∧ length (logged warn (trace env'))
            = (length (logged warn (trace env)) + length ds)%nat
      | Thrown error =>
          attempt st' = (attempt st + Z.of_nat (length ds) + 1)%Z
          ∧ (attempt st' <= maxAttempts config)%Z
          ∧ invocations (trace env')
            = (invocations (trace env) + length ds + 1)%nat
          ∧ length (errors st') = (length (errors st) + length ds + 1)%nat
          ∧ logged info (trace env') = logged info (trace env)
          ∧ length (logged warn (trace env'))
            = (length (logged warn (trace env)) + length ds + 1)%nat
          ∧ instanceofError error = true
          ∧ (error = List.last (errors st') VUndefined
             ∨ (instanceofEmailError error = true
                ∧ cause error = List.last (errors st') VUndefined))
      end.
Proof.
  induction fuel as [|fuel IH]; intros st env exit st' env' H;
    [discriminate|].
  destruct (Z.lt_ge_cases (attempt st) (maxAttempts config)) as [Hlt | Hge].
  2: { rewrite loop_exit in H by lia. injection H as <- <- <-.
       exists []. cbn. rewrite app_nil_r, Z.add_0_r.
       repeat split; try apply Forall_nil; try lia.
       destruct (jitter config); lia. }
  rewrite loop_enter in H by exact Hlt.
  destruct (loopBody_step st env)
    as [v env1 Hop Hd Hi Hs Hinfo Hwarn
       | e env1 Hop Hstop Hd Hi Hs Hinfo Hwarn st1
       | e env0 env1 Hop Hmore Hretry Hd0 Hd Hi d Hs Hinfo Hwarn].
  - injection H as <- <- <-. exists [].
    cbn [attempt totalDelay errors length sumDelays fold_right].
    rewrite app_nil_r, Hs, Hd, Hi, Hinfo, Hwarn.
    repeat split; try apply Forall_nil; try lia.
    destruct (jitter config); lia.
  - injection H as <- <- <-. exists []. subst st1.
    cbn [attempt totalDelay errors length sumDelays fold_right].
    rewrite app_nil_r, last_last, Hs, Hd, Hi, Hinfo, Hwarn, length_app.
    cbn [length].
    repeat split; try apply Forall_nil; try lia.
    + destruct (jitter config); lia.
    + destruct e; reflexivity.
    + destruct (instanceofEmailError e) eqn:Hcls.
      * right. destruct e; try discriminate. split; reflexivity.
      * now left.
  - apply IH in H as (ds & Hs' & Hpos & Htotal & Hdraws & Hexit).
    cbn [attempt totalDelay errors] in *.
    exists (d :: ds). rewrite Hs', Hs, <- app_assoc. cbn [app].
    split; [reflexivity|]. split.
    { constructor; [apply calculateDelay_nonneg | exact Hpos]. }
    split; [rewrite Htotal; cbn [sumDelays fold_right]; fold (sumDelays ds);
            lia|].
    split; [rewrite Hdraws, Hd; cbn [length];
            destruct (jitter config); lia|].
    destruct exit as [v | error | error].
    + destruct Hexit as (Ha & Hle & Hi' & He' & Hinfo' & Hwarn').
      rewrite Hi', Hi, He', Hinfo', Hinfo, Hwarn', Hwarn, length_app.
      cbn [length]. repeat split; lia.
    + destruct Hexit
        as (Ha & Hle & Hi' & He' & Hinfo' & Hwarn' & Hinst & Hlast).
      rewrite Hi', Hi, He', Hinfo', Hinfo, Hwarn', Hwarn, length_app.
      cbn [length]. repeat split; try lia; assumption.
    + destruct Hexit as (_ & _ & _ & Hnot). cbn [attempt] in Hnot. lia.
Qed.

(** [execute] never calls the operation more often than [maxAttempts],
    and [state.attempt] counts the calls. *)
Theorem execute_call_budget (w : W) exit st env :
  execute config random operation context w = Some (exit, st, env) ->
  Z.of_nat (invocations (trace env)) = attempt st
  ∧ (Z.of_nat (invocations (trace env)) <= Z.max 0 (maxAttempts config))%Z.
Proof.
  intros H. apply loop_accounting in H as (ds & _ & _ & _ & _ & Hexit).
  cbn [initialState initialEnv attempt trace invocations List.filter
       length Nat.add] in Hexit.
  destruct exit as [v | error | error].
  - destruct Hexit as (Ha & Hle & Hi & _). rewrite Hi. lia.
  - destruct Hexit as (Ha & Hle & Hi & _). rewrite Hi. lia.
  - destruct Hexit as (_ & -> & -> & _). cbn. lia.
Qed.


(** [Math.random] is called once for each delay when jitter is on, and
    not at all when it is off. *)
Theorem execute_random_draws (w : W) exit st env :
  execute config random operation context w = Some (exit, st, env) ->
  draws env = if jitter config then length (sleeps (trace env)) else 0%nat.
Proof.
  intros H.
  apply loop_accounting in H as (ds & Hs & _ & _ & Hdraws & _).
  cbn [initialEnv draws trace sleeps flat_map app Nat.add] in *.
  now subst ds.
Qed.



(** When [execute] returns, every call but the last one failed. *)
Theorem execute_returns_after_failures (w : W) v st env :
  execute config random operation context w = Some (Returned v, st, env) ->
  S (length (errors st)) = invocations (trace env)
  ∧ (1 <= attempt st <= maxAttempts config)%Z.
Proof.
  intros H. apply loop_accounting in H as (ds & _ & _ & _ & _ & Hexit).
  cbn [initialState initialEnv errors attempt trace invocations List.filter
       length Nat.add] in Hexit.
  destruct Hexit as (Ha & Hle & Hi & He & _). rewrite He, Hi. lia.
Qed.

(** A failure that is not retryable ends [execute] at once: after the
    [k-1] retryable failures before it the operation has been called [k]
    times, is not called again, and no delay follows the last call. *)
Theorem execute_stops_on_non_retryable (es : list JsValue) (e : JsValue)
        (w w1 : W) :
  Rejects operation w (es ++ [e]) w1 ->
  Forall retryableFailure es ->
  (Z.of_nat (S (length es)) <= maxAttempts config)%Z ->
  isRetryableError (toError e) = false ->
  ∃ error st env,
    execute config random operation context w = Some (Thrown error, st, env)
    ∧ invocations (trace env) = S (length es)
    ∧ length (sleeps (trace env)) = length es
    ∧ world env = w1.
Proof.
  intros Hrej Hall Hle Hstop.
  destruct (execute_gives_up config random operation context
              es e w w1 Hrej Hall Hle (or_intror Hstop))
    as (st & env & Hexec & _ & _ & Hw & Hi & Hs).
  eauto 10.
Qed.

End Accounting.

(** * Bounds and growth of the delays *)


Section DelayBounds.

Context {W : Type}.
Variable config : RetryConfig.
Variable random : nat -> Q.

(** With jitter off a computed delay exceeds [maxDelay] by rounding at
    most. *)
Lemma calculateDelay_capped (a : Z) (env : Env W) :
  jitter config = false ->
  (0 <= maxDelay config)%Q ->
  (inject_Z (fst (calculateDelay config random a env))
   <= maxDelay config + (1 # 2))%Q.
Proof.
  intros Hj Hmax. rewrite calculateDelay_no_jitter by exact Hj. cbn [fst].
  assert (Hc : (cappedDelay config a <= maxDelay config)%Q)
    by apply Q.le_min_r.
  pose proof (Math_round_bounds (cappedDelay config a)) as [_ Hup].
  destruct (Z.max_spec 0 (Math_round (cappedDelay config a)))
    as [[_ ->] | [_ ->]]; [|change (inject_Z 0) with 0%Q]; lra.
Qed.


End DelayBounds.

Section SleptDelays.

Context {T W : Type}.
Variable config : RetryConfig.
Variable random : nat -> Q.
Variable operation : W -> Outcome T * W.
Variable context : option (gmap string JsValue).

(** Every delay slept was computed by [calculateDelay]. *)
Lemma loop_delays_computed fuel : ∀ st env exit st' env',
  loop config random operation context fuel st env
  = Some (exit, st', env') ->
  ∃ ds : list Z,
    sleeps (trace env') = sleeps (trace env) ++ ds
    ∧ Forall (λ d, ∃ (a : Z) (env0 : Env W),
                 d = fst (calculateDelay config random a env0)) ds.
Proof.
  induction fuel as [|fuel IH]; intros st env exit st' env' H;
    [discriminate|].
  destruct (Z.lt_ge_cases (attempt st) (maxAttempts config)) as [Hlt | Hge].
  2: { rewrite loop_exit in H by lia. injection H as _ _ <-.
       exists []. now rewrite app_nil_r. }
  rewrite loop_enter in H by exact Hlt.
  destruct (loopBody_step config random operation context st env)
    as [v env1 _ _ _ Hs _ _
       | e env1 _ _ _ _ Hs _ _ st1
       | e env0 env1 _ _ _ _ _ _ d Hs _ _].
  - injection H as _ _ <-. exists []. now rewrite app_nil_r.
  - injection H as _ _ <-. exists []. now rewrite app_nil_r.
  - apply IH in H as (ds & Hs' & Hall). exists (d :: ds).
    rewrite Hs', Hs, <- app_assoc. split; [reflexivity|].
    constructor; [eauto | exact Hall].
Qed.

(** With jitter off, no delay slept by [execute] is negative and none
    exceeds [maxDelay] by more than the rounding to an integer, however
    large the backoff has grown.  (The initial delay is positive: a
    delay of 0 times a power that has overflowed is not a number.) *)
Theorem execute_delays_capped (w : W) exit st env :
  jitter config = false ->
  (0 < initialDelay config)%Q ->
  (0 <= maxDelay config)%Q ->
  execute config random operation context w = Some (exit, st, env) ->
  Forall
    (λ d, (0 <= d)%Z ∧ (inject_Z d <= maxDelay config + (1 # 2))%Q)
    (sleeps (trace env)).
Proof.
  intros Hj _ Hmax H.
  apply loop_delays_computed in H as (ds & Hs & Hall).
  cbn [initialEnv trace sleeps flat_map app] in Hs. rewrite Hs.
  eapply Forall_impl; [exact Hall|].
  intros d (a & env0 & ->). split.
  - apply calculateDelay_nonneg.
  - now apply calculateDelay_capped.
Qed.


End SleptDelays.

(** * The classifier, continued *)

Section ClassifierMore.

Import Text TextFacts.


Lemma isRetryableError_no_message_witness :
  isRetryableError (VObject {[ "message" := VNumber 42 ]}) = false.
Proof.
  apply isRetryableError_no_message; [reflexivity|].
  intros m. vm_compute. discriminate.
Defined.

Lemma categorizeSmtpError_cases (error : JsValue)
      (ctx : option (gmap string JsValue)) :
  ∃ cls msg cause,
    categorizeSmtpError error ctx = VEmailError cls msg cause ctx
    ∧ (cls = SMTPAuthenticationError ∨ cls = SMTPConnectionError
       ∨ cls = EmailSendError)
    ∧ (cls = SMTPAuthenticationError ↔ authenticationFailure error)
    ∧ (isRetryableError (categorizeSmtpError error ctx) = false
       ↔ authenticationFailure error).
Proof.
  unfold categorizeSmtpError, authenticationFailure.
  destruct (instanceofError error) eqn:Hinst; cbn [negb].
  2: { eexists _, _, _. split; [reflexivity|]. split; [auto|].
       split; (split; [discriminate | intros [? _]; discriminate]). }
  assert (∃ m, message error = Some (VString m)) as [m Hm]
      by (destruct error; try discriminate; eauto).
  rewrite Hm.
  assert (Hauth :
    Js.includes (Js.toLowerCase m) "auth"
    || Js.includes (Js.toLowerCase m) "login"
    || Js.includes (Js.toLowerCase m) "password" = true
    ↔ (true = true
       ∧ ∃ m0, Some (VString m) = Some (VString m0)
               ∧ (occursIn "auth" (Js.toLowerCase m0)
                  ∨ occursIn "login" (Js.toLowerCase m0)
                  ∨ occursIn "password" (Js.toLowerCase m0)))).
  { rewrite !orb_true_iff, !includes_spec. split.
    - intros H. split; [reflexivity|]. exists m. split; [reflexivity|].
      tauto.
    - intros (_ & m0 & [= <-] & H). tauto. }
  destruct (Js.includes (Js.toLowerCase m) "auth"
            || Js.includes (Js.toLowerCase m) "login"
            || Js.includes (Js.toLowerCase m) "password") eqn:Ha.
  - eexists _, _, _. split; [reflexivity|]. split; [auto|].
    split; (split; [intros _; now apply Hauth | reflexivity]).
  - assert (Hno : ¬ (true = true
       ∧ ∃ m0, Some (VString m) = Some (VString m0)
               ∧ (occursIn "auth" (Js.toLowerCase m0)
                  ∨ occursIn "login" (Js.toLowerCase m0)
                  ∨ occursIn "password" (Js.toLowerCase m0))))
      by (intros H; apply Hauth in H; discriminate).
    destruct (Js.includes (Js.toLowerCase m) "connect"
              || Js.includes (Js.toLowerCase m) "timeout"
              || Js.includes (Js.toLowerCase m) "enotfound");
      eexists _, _, _; (split; [reflexivity|]); (split; [auto|]);
      split; (split; [discriminate | intros H; contradiction]).
Qed.


End ClassifierMore.

(** * Callers of the executor *)

Lemma RetryableOperation_config_full (config : RetryConfig) :
  RetryableOperation_config (Partial.full config) = config.
Proof. now destruct config. Qed.


Section Origins.

Context {T W : Type}.
Variable config : RetryConfig.
Variable random : nat -> Q.
Variable operation : W -> Outcome T * W.
Variable context : option (gmap string JsValue).





End Origins.

Section Transport.

Context {W : Type}.
Variable random : nat -> Q.
Variable retryConfig : option RetryConfig.
Variable trySend : W -> Outcome unit * W.
Variable logger_error : string -> gmap string JsValue -> JsValue -> W -> W.
Variable to : Recipients.
Variable subject : string.

Lemma sendMail_execute (w : W) :
  sendMail random retryConfig trySend logger_error to subject w
  = execute (default RetryConfigs.smtp retryConfig) random
      (sendMailOperation trySend logger_error to subject)
      (Some (<["operation" := VString "sendMail"]>
               (<["transport" := VString "nodemailer"]>
                  (<["to" := VNumber (recipientCount to)]> ∅))))
      w.
Proof.
  unfold sendMail, withRetry. cbn [from_option id].
  now rewrite RetryableOperation_config_full.
Qed.

Lemma sendMailOperation_rejects (w : W) e w' :
  trySend w = (Rejected e, w') ->
  let context : gmap string JsValue :=
    <["to" := recipientList to]> (<["subject" := VString subject]> ∅) in
  sendMailOperation trySend logger_error to subject w
  = (Rejected (categorizeSmtpError e (Some context)),
     logger_error "SMTP send failed" context
       (categorizeSmtpError e (Some context)) w').
Proof. intros H. unfold sendMailOperation. now rewrite H. Qed.



(** An authentication failure of the transporter is not retried: the
    transporter is used once, no delay is slept, and [sendMail] rejects
    with an [SMTPAuthenticationError] that reports one attempt. *)
Theorem sendMail_authentication_not_retried (w w' : W) (e : JsValue)
        (m : string) :
  (1 <= maxAttempts (default RetryConfigs.smtp retryConfig))%Z ->
  trySend w = (Rejected e, w') ->
  authenticationFailure e ->
  message e = Some (VString m) ->
  ∃ st env cause ctx,
    sendMail random retryConfig trySend logger_error to subject w
    = Some (Thrown
              (VEmailError SMTPAuthenticationError
                 ("Operation failed after 1 attempts: "
                    +:+ "SMTP authentication failed: " +:+ m)
                 cause ctx),
            st, env)
    ∧ invocations (trace env) = 1%nat
    ∧ sleeps (trace env) = [].
Proof.
  intros HN Hsend Hauth Hm. rewrite sendMail_execute.
  pose proof (sendMailOperation_rejects w e w' Hsend) as Hop.
  cbn zeta in Hop.
  set (context := <["to" := recipientList to]>
                    (<["subject" := VString subject]> ∅)
                  : gmap string JsValue) in *.
  destruct (categorizeSmtpError_cases e (Some context))
    as (cls & msg & cause & Hcat & _ & Hcls & Hretry).
  apply Hcls in Hauth as Hc. subst cls.
  assert (Hmsg : msg = "SMTP authentication failed: " +:+ m).
  { destruct Hauth as [Hinst (m0 & Hm0 & Hkey)].
    rewrite Hm in Hm0. injection Hm0 as <-.
    revert Hcat. unfold categorizeSmtpError. rewrite Hinst, Hm. cbn [negb].
    rewrite <- !TextFacts.includes_spec in Hkey.
    assert (Js.includes (Js.toLowerCase m) "auth"
            || Js.includes (Js.toLowerCase m) "login"
            || Js.includes (Js.toLowerCase m) "password" = true) as ->
        by (rewrite !orb_true_iff; tauto).
    now intros [= <- _]. }
  subst msg.
  match goal with
  | |- context [execute ?c random ?op ?ctx w] =>
      destruct (execute_gives_up c random op ctx [] _ w _
                  (Rejects_cons _ _ _ _ _ _ Hop (Rejects_nil _ _)))
        as (st & env & Hexec & Ha & He & _ & Hi & Hs)
  end.
  - constructor.
  - cbn. lia.
  - right. rewrite toError_instance by (now rewrite Hcat).
    now apply Hretry.
  - rewrite Hcat in Hexec. cbn [instanceofEmailError retryError] in Hexec.
    rewrite Ha in Hexec. eexists st, env, _, _.
    split; [exact Hexec|]. split; [exact Hi|].
    now destruct (sleeps (trace env)).
Qed.


End Transport.

Section Rendering.

Context {W : Type}.
Variable random : nat -> Q.
Variable templateRetry : option RetryConfig.
Variable tryRender : W -> Outcome string * W.
Variable templateName : string.
Variable propKeys : list string.

Lemma renderTemplate_execute (w : W) :
  renderTemplate random templateRetry tryRender templateName propKeys w
  = execute (default RetryConfigs.template templateRetry) random
      (renderOperation tryRender templateName propKeys)
      (Some (<["operation" := VString "renderTemplate"]>
               (<["templateName" := VString templateName]> ∅)))
      w.
Proof.
  unfold renderTemplate, withRetry. cbn [from_option id].
  now rewrite RetryableOperation_config_full.
Qed.

Lemma renderTemplate_runs_once (w : W) :
  (1 <= maxAttempts (default RetryConfigs.template templateRetry))%Z ->
  ∃ exit st env,
    renderTemplate random templateRetry tryRender templateName propKeys w
    = Some (exit, st, env)
    ∧ invocations (trace env) = 1%nat
    ∧ sleeps (trace env) = []
    ∧ world env = snd (tryRender w)
    ∧ match fst (tryRender w) with
      | Resolved html => exit = Returned html
      | Rejected error =>
          ∃ ctx,
            exit
            = Thrown
                (VEmailError TemplateRenderError
                   ("Operation failed after 1 attempts: "
                      +:+ "Failed to render template " +:+ templateName
                      +:+ ": "
                      +:+ (if instanceofError error
                           then match message error with
                                | Some (VString m) => m
                                | _ => EmptyString
                                end
                           else Js.String error))
                   (renderFailure templateName propKeys error) ctx)
      end.
Proof.
  intros HN. rewrite renderTemplate_execute.
  destruct (tryRender w) as [[html | error] w'] eqn:Htry; cbn [fst snd].
  - assert (Hop : renderOperation tryRender templateName propKeys w
                  = (Resolved html, w'))
      by (unfold renderOperation; now rewrite Htry).
    match goal with
    | |- context [execute ?c random ?op ?ctx w] =>
        destruct (execute_after_prefix c random op ctx [] w w
                    (Rejects_nil _ _))
          as (st & env & fuel & -> & Ha & _ & Hw & Hi & Hs);
        [constructor | cbn; lia |];
        rewrite <- Hw in Hop;
        destruct (loopBody_resolved c random op ctx st env html w' Hop)
          as (env' & Hbody & Hw' & _ & Hi' & Hs')
    end.
    rewrite loop_enter by (rewrite Ha; cbn; lia). rewrite Hbody.
    eexists _, _, env'. split; [reflexivity|].
    rewrite Hi', Hi, Hs'. cbn [length] in *.
    repeat split; [now destruct (sleeps (trace env)) | exact Hw'].
  - assert (Hop : renderOperation tryRender templateName propKeys w
                  = (Rejected (renderFailure templateName propKeys error),
                     w'))
      by (unfold renderOperation; now rewrite Htry).
    match goal with
    | |- context [execute ?c random ?op ?ctx w] =>
        destruct (execute_gives_up c random op ctx [] _ w _
                    (Rejects_cons _ _ _ _ _ _ Hop (Rejects_nil _ _)))
          as (st & env & Hexec & Ha & He & Hw & Hi & Hs)
    end.
    + constructor.
    + cbn. lia.
    + right. reflexivity.
    + cbn [instanceofEmailError renderFailure retryError] in Hexec.
      rewrite Ha in Hexec. eexists _, st, env.
      split; [exact Hexec|]. split; [exact Hi|].
      split; [now destruct (sleeps (trace env))|].
      split; [exact Hw|]. eexists. reflexivity.
Qed.


End Rendering.

(** * Worked executions, continued *)

Section WorkedMore.

Import Scenarios Fixtures.

Ltac run_of H :=
  exfalso; revert H;
  match goal with
  | |- ?x = None -> False =>
      let E := fresh "E" in
      assert (E : match x with Some _ => true | None => false end = true)
        by (vm_compute; reflexivity);
      intros H; rewrite H in E; discriminate E
  end.

Lemma execute_call_budget_witness :
  ∃ exit st env,
    execute RetryConfigs.template lowestDraw (alwaysRejects timedOut)
            None 0%nat
    = Some (exit, st, env)
    ∧ Z.of_nat (invocations (trace env)) = attempt st
    ∧ (Z.of_nat (invocations (trace env)) <= 2)%Z.
Proof.
  destruct (execute RetryConfigs.template lowestDraw
                    (alwaysRejects timedOut) None 0%nat)
    as [[[exit st] env]|] eqn:H; [|run_of H].
  exists exit, st, env. split; [reflexivity|].
  exact (execute_call_budget RetryConfigs.template lowestDraw
           (alwaysRejects timedOut) None 0%nat exit st env H).
Defined.


Lemma execute_random_draws_witness :
  ∃ exit st env,
    execute RetryConfigs.smtp lowestDraw (alwaysRejects timedOut) None
            0%nat
    = Some (exit, st, env)
    ∧ draws env = length (sleeps (trace env)).
Proof.
  destruct (execute RetryConfigs.smtp lowestDraw (alwaysRejects timedOut)
                    None 0%nat)
    as [[[exit st] env]|] eqn:H; [|run_of H].
  exists exit, st, env. split; [reflexivity|].
  exact (execute_random_draws RetryConfigs.smtp lowestDraw
           (alwaysRejects timedOut) None 0%nat exit st env H).
Defined.



Lemma execute_returns_after_failures_witness :
  ∃ st env,
    execute doubling lowestDraw (rejectsThenResolves 3 timedOut 7) None
            0%nat
    = Some (Returned 7%Z, st, env)
    ∧ S (length (errors st)) = invocations (trace env)
    ∧ (1 <= attempt st <= 5)%Z.
Proof.
  destruct (execute doubling lowestDraw (rejectsThenResolves 3 timedOut 7)
                    None 0%nat)
    as [[[exit st] env]|] eqn:H; [|run_of H].
  assert (E : match execute doubling lowestDraw
                      (rejectsThenResolves 3 timedOut 7) None 0%nat with
              | Some (exit, _, _) => Some exit
              | None => None
              end = Some (Returned 7%Z))
    by (vm_compute; reflexivity).
  rewrite H in E. injection E as ->.
  exists st, env. split; [reflexivity|].
  exact (execute_returns_after_failures doubling lowestDraw
           (rejectsThenResolves 3 timedOut 7) None 0%nat _ st env H).
Defined.

Lemma execute_stops_on_non_retryable_witness :
  ∃ error st env,
    execute doubling lowestDraw
            (alwaysRejects (VError "Invalid recipient")) None 0%nat
    = Some (Thrown error, st, env)
    ∧ invocations (trace env) = 1%nat
    ∧ length (sleeps (trace env)) = 0%nat
    ∧ world env = 1%nat.
Proof.
  apply (execute_stops_on_non_retryable doubling lowestDraw
           (alwaysRejects (VError "Invalid recipient")) None
           [] (VError "Invalid recipient") 0%nat 1%nat).
  - repeat econstructor.
  - constructor.
  - cbn. lia.
  - reflexivity.
Defined.

Lemma execute_delays_capped_witness :
  ∃ exit st env,
    execute doubling lowestDraw (alwaysRejects timedOut) None 0%nat
    = Some (exit, st, env)
    ∧ Forall (λ d, (0 <= d)%Z ∧ (inject_Z d <= 1000 + (1 # 2))%Q)
             (sleeps (trace env)).
Proof.
  destruct (execute doubling lowestDraw (alwaysRejects timedOut)
                    None 0%nat)
    as [[[exit st] env]|] eqn:H; [|run_of H].
  exists exit, st, env. split; [reflexivity|].
  apply (execute_delays_capped doubling lowestDraw
           (alwaysRejects timedOut) None 0%nat exit st env).
  - reflexivity.
  - reflexivity.
  - discriminate.
  - exact H.
Defined.



Lemma sendMail_authentication_not_retried_witness :
  ∃ st env cause ctx,
    sendMail lowestDraw None loginRefused silent
             (OneRecipient "a@b.c") "Hello" 0%nat
    = Some (Thrown
              (VEmailError SMTPAuthenticationError
                 ("Operation failed after 1 attempts: "
                    +:+ "SMTP authentication failed: "
                    +:+ "Invalid login: 535")
                 cause ctx),
            st, env)
    ∧ invocations (trace env) = 1%nat
    ∧ sleeps (trace env) = [].
Proof.
  apply (sendMail_authentication_not_retried lowestDraw None loginRefused
           silent (OneRecipient "a@b.c") "Hello" 0%nat 1%nat
           (VError "Invalid login: 535") "Invalid login: 535").
  - cbn. lia.
  - reflexivity.
  - split; [reflexivity|]. eexists. split; [reflexivity|].
    right. left. apply TextFacts.includes_spec. reflexivity.
  - reflexivity.
Defined.



End WorkedMore.

(** * Retrying a transport that retries *)

Section Nested.

Context {T W : Type}.
Variable config : RetryConfig.
Variable random : nat -> Q.
Variable operation : W -> Outcome T * W.
Variable context : option (gmap string JsValue).

Lemma executeIn_gives_up es e (env : Env W) w1 :
  Rejects operation (world env) (es ++ [e]) w1 ->
  Forall retryableFailure es ->
  (Z.of_nat (S (length es)) <= maxAttempts config)%Z ->
  (Z.of_nat (S (length es)) = maxAttempts config
   ∨ isRetryableError (toError e) = false) ->
  ∃ st env',
    executeIn config random operation context env
    = Some (Thrown (if instanceofEmailError e
                    then retryError st e context else toError e),
            st, env')
    ∧ attempt st = Z.of_nat (S (length es))
    ∧ world env' = w1
    ∧ invocations (trace env')
      = (invocations (trace env) + S (length es))%nat.
Proof.
  intros Hrej Hall Hle Hstop.
  apply Rejects_snoc in Hrej as (w' & Hrej & Hop).
  destruct (loop_prefix config random operation context es
              initialState env w' Hrej Hall)
    as (st & env1 & Hloop & Ha & _ & Hw & Hi & _);
    [cbn [initialState attempt]; lia |].
  cbn [initialState attempt] in Ha.
  unfold executeIn.
  replace (S (Z.to_nat (maxAttempts config)))
    with (length es + S (Z.to_nat (maxAttempts config) - length es))%nat
    by lia.
  rewrite Hloop, loop_enter by lia. rewrite <- Hw in Hop.
  destruct (loopBody_gives_up config random operation context
              st env1 e w1 Hop) as (env' & -> & Hw' & _ & Hi' & _).
  { destruct Hstop; [left; lia | now right]. }
  eexists _, env'. split; [reflexivity|].
  cbn [attempt]. rewrite Hi', Hi. repeat split; [lia | exact Hw' | lia].
Qed.


End Nested.

Section Amplification.

Context {W : Type}.
Variable random randomOuter : nat -> Q.
Variable transportRetry : option RetryConfig.
Variable serviceRetry : option RetryConfig.
Variable trySend : W -> Outcome unit * W.
Variable logger_error : string -> gmap string JsValue -> JsValue -> W -> W.
Variable to : Recipients.
Variable subject : string.
Variable templateName : string.



(** An authentication failure is not amplified: the transport gives up
    after one use of the transporter, the service gives up after one
    call of the transport, and the error reports "1 attempts" twice. *)
Theorem sendWithRetry_authentication_single_use (env : Env W) (e : JsValue)
        (m : string) (w' : W) :
  (1 <= maxAttempts (default RetryConfigs.smtp transportRetry))%Z ->
  (1 <= maxAttempts (default RetryConfigs.smtp serviceRetry))%Z ->
  trySend (world env) = (Rejected e, w') ->
  authenticationFailure e ->
  message e = Some (VString m) ->
  ∃ st env' cause ctx,
    sendWithRetry random randomOuter transportRetry serviceRetry trySend
                  logger_error to subject templateName env
    = Some (Thrown
              (VEmailError SMTPAuthenticationError
                 ("Operation failed after 1 attempts: "
                    +:+ "Operation failed after 1 attempts: "
                    +:+ "SMTP authentication failed: " +:+ m)
                 cause ctx),
            st, env')
    ∧ invocations (trace env') = 1%nat
    ∧ invocations (trace (world env')) = S (invocations (trace env)).
Proof.
  intros Hin Hout Hsend Hauth Hm.
  set (op := transportSendMail random transportRetry trySend logger_error
                               to subject).
  assert (Hop : ∃ cause ctx env1,
            op env
            = (Rejected
                 (VEmailError SMTPAuthenticationError
                    ("Operation failed after 1 attempts: "
                       +:+ "SMTP authentication failed: " +:+ m)
                    cause ctx), env1)
            ∧ invocations (trace env1) = S (invocations (trace env))).
  { pose proof (sendMailOperation_rejects trySend logger_error to subject
                  (world env) e w' Hsend) as H.
    cbn zeta in H.
    set (context := <["to" := recipientList to]>
                      (<["subject" := VString subject]> ∅)
                    : gmap string JsValue) in *.
    destruct (categorizeSmtpError_cases e (Some context))
      as (cls & msg & cause & Hcat & _ & Hcls & Hretry).
    apply Hcls in Hauth as Hc. subst cls.
    assert (Hmsg : msg = "SMTP authentication failed: " +:+ m).
    { destruct Hauth as [Hinst (m0 & Hm0 & Hkey)].
      rewrite Hm in Hm0. injection Hm0 as <-.
      revert Hcat. unfold categorizeSmtpError. rewrite Hinst, Hm.
      cbn [negb]. rewrite <- !TextFacts.includes_spec in Hkey.
      assert (Js.includes (Js.toLowerCase m) "auth"
              || Js.includes (Js.toLowerCase m) "login"
              || Js.includes (Js.toLowerCase m) "password" = true) as ->
          by (rewrite !orb_true_iff; tauto).
      now intros [= <- _]. }
    subst msg. unfold op, transportSendMail, withRetryIn.
    cbn [from_option id]. rewrite RetryableOperation_config_full.
    match goal with
    | |- context [executeIn ?c random ?o ?ctx env] =>
        destruct (executeIn_gives_up c random o ctx [] _ env _
                    (Rejects_cons _ _ _ _ _ _ H (Rejects_nil _ _)))
          as (st & env1 & -> & Ha & _ & Hi)
    end.
    - constructor.
    - cbn. lia.
    - right. rewrite toError_instance by (now rewrite Hcat).
      now apply Hretry.
    - rewrite Hcat. cbn [settle instanceofEmailError retryError].
      rewrite Ha. eexists _, _, env1. split; [reflexivity|].
      rewrite Hi. cbn. lia. }
  destruct Hop as (cause & ctx & env1 & Hop & Hi1).
  unfold sendWithRetry, withRetry. cbn [from_option id].
  rewrite RetryableOperation_config_full. fold op.
  match goal with
  | |- context [execute ?c randomOuter op ?x env] =>
      destruct (execute_gives_up c randomOuter op x [] _ env _
                  (Rejects_cons _ _ _ _ _ _ Hop (Rejects_nil _ _)))
        as (st & env' & Hexec & Ha & _ & Hw & Hi & _)
  end.
  - constructor.
  - cbn. lia.
  - right. reflexivity.
  - cbn [instanceofEmailError retryError] in Hexec. rewrite Ha in Hexec.
    eexists st, env', _, _. split; [exact Hexec|].
    rewrite Hw, Hi. split; [reflexivity | exact Hi1].
Qed.

End Amplification.

(** * The template registry *)

Section TemplatesFacts.

Import Templates.

Section MapFacts.

Context {V : Type}.

Lemma mapGet_mapSet_same key (v : V) m : mapGet key (mapSet key v m) = Some v.
Proof.
  induction m as [|[k x] m IH]; cbn.
  - now rewrite String.eqb_refl.
  - destruct (String.eqb k key) eqn:E; cbn; rewrite E; [reflexivity | exact IH].
Qed.

Lemma mapGet_mapSet_other key key' (v : V) m :
  key <> key' -> mapGet key' (mapSet key v m) = mapGet key' m.
Proof.
  intros Hne. induction m as [|[k x] m IH]; cbn.
  - destruct (String.eqb_spec key key'); [contradiction | reflexivity].
  - destruct (String.eqb_spec k key) as [-> | Hk]; cbn.
    + destruct (String.eqb_spec key key'); [contradiction | reflexivity].
    + now rewrite IH.
Qed.

Lemma mapGet_None key (m : list (string * V)) :
  mapGet key m = None ↔ ¬ In key (mapKeys m).
Proof.
  induction m as [|[k x] m IH]; cbn; [tauto|].
  destruct (String.eqb_spec k key) as [-> | Hk].
  - split; [discriminate | intros H; exfalso; apply H; now left].
  - rewrite IH. split; [intros H [? | ?]; [contradiction | now apply H]|].
    intros H Hin. apply H. now right.
Qed.

Lemma mapKeys_mapSet key (v : V) m :
  mapKeys (mapSet key v m)
  = if mapHas key m then mapKeys m else mapKeys m ++ [key].
Proof.
  unfold mapHas, mapKeys. induction m as [|[k x] m IH]; cbn; [reflexivity|].
  destruct (String.eqb_spec k key) as [-> | Hk]; cbn; [reflexivity|].
  rewrite IH. now destruct (mapGet key m).
Qed.

End MapFacts.

Section RegistryFacts.

Context {Component : Type}.

(** A definition that [registerTemplate] accepts. *)
Lemma registerTemplate_accepts (d : TemplateDefinition Component)
      (r : Registry Component) :
  name d <> EmptyString ->
  component d <> None ->
  ∃ r', registerTemplate d r = (Normal tt, r')
        ∧ templates r'
          = mapSet (name d) d (templates r).
Proof.
  intros Hn Hc. unfold registerTemplate.
  destruct (String.eqb_spec (name d) EmptyString) as [E | _];
    [contradiction|].
  destruct (component d) as [c|]; [|contradiction].
  eexists. split; [reflexivity|].
  destruct (mapHas (name d) (templates r)); reflexivity.
Qed.

Lemma registerTemplate_rejects (d : TemplateDefinition Component)
      (r : Registry Component) :
  name d = EmptyString ∨ component d = None ->
  ∃ e, registerTemplate d r = (Throw e, r).
Proof.
  intros H. unfold registerTemplate.
  destruct (String.eqb_spec (name d) EmptyString) as [E | Hne];
    [eauto|].
  destruct H as [H | H]; [contradiction|]. rewrite H. eauto.
Qed.

(** Registering and looking up.  After [registerTemplate] accepts a
    definition, [getTemplateDefinition] and [getTemplate] find it under
    its name, and every other name is looked up as before. *)
Theorem registerTemplate_then_get (d : TemplateDefinition Component)
      (r : Registry Component) :
  name d <> EmptyString ->
  component d <> None ->
  let r' := snd (registerTemplate d r) in
  fst (registerTemplate d r) = Normal tt
  ∧ getTemplateDefinition (name d) r' = Some d
  ∧ getTemplate (name d) r' = Normal (component d)
  ∧ ∀ other, other <> name d ->
      getTemplateDefinition other r'
      = getTemplateDefinition other r.
Proof.
  intros Hn Hc.
  destruct (registerTemplate_accepts d r Hn Hc) as (r' & Hreg & Ht).
  rewrite Hreg. cbn [fst snd].
  unfold getTemplateDefinition, getTemplate. rewrite Ht.
  rewrite mapGet_mapSet_same. repeat split.
  intros other Hne. apply mapGet_mapSet_other. congruence.
Qed.

(** Registering a name again overrides the definition in place: the
    list of available templates does not change, and a warning is
    logged; a new name goes to the end of the list. *)
Theorem registerTemplate_names (d : TemplateDefinition Component)
      (r : Registry Component) :
  name d <> EmptyString ->
  component d <> None ->
  let r' := snd (registerTemplate d r) in
  if mapHas (name d) (templates r)
  then getAvailableTemplates r' = getAvailableTemplates r
       ∧ In {| Logger.level := Logger.Warn;
               Logger.message
               := "Template " +:+ name d +:+ " is being overridden";
               Logger.context := None;
               Logger.error := None |} (lines r')
  else getAvailableTemplates r'
       = getAvailableTemplates r ++ [name d].
Proof.
  intros Hn Hc. cbn zeta. unfold registerTemplate, getAvailableTemplates.
  destruct (String.eqb_spec (name d) EmptyString) as [E | _];
    [contradiction|].
  destruct (component d) as [c|]; [|contradiction].
  destruct (mapHas (name d) (templates r)) eqn:Hhas;
    cbn [snd say templates lines]; rewrite mapKeys_mapSet, Hhas.
  - split; [reflexivity|]. rewrite !in_app_iff. cbn. auto.
  - reflexivity.
Qed.

(** A registry reached from the fresh one never lists a name twice, and
    every definition in it has a non-empty name, filed under that name,
    and a component. *)
Lemma Reachable_invariant (r : Registry Component) :
  Reachable r ->
  NoDup (getAvailableTemplates r)
  ∧ ∀ key d, mapGet key (templates r) = Some d ->
             name d = key ∧ key <> EmptyString ∧ component d <> None.
Proof.
  induction 1 as [|d r Hr [IHn IHd]|r Hr _].
  - split; [constructor | discriminate].
  - unfold registerTemplate, getAvailableTemplates in *.
    destruct (String.eqb_spec (name d) EmptyString) as [E | Hne];
      [now split|].
    destruct (component d) as [c|] eqn:Hc; [|now split].
    assert (Hd : component d <> None) by congruence.
    destruct (mapHas (name d) (templates r)) eqn:Hhas;
      cbn [snd say templates lines]; rewrite mapKeys_mapSet, Hhas.
    + split; [exact IHn|]. intros key d' Hget.
      destruct (String.eqb_spec (name d) key) as [<- | Hk].
      * rewrite mapGet_mapSet_same in Hget. injection Hget as <-. auto.
      * rewrite mapGet_mapSet_other in Hget by exact Hk. eauto.
    + split.
      * apply NoDup_app. repeat split; [exact IHn | | apply NoDup_singleton].
        intros x Hx Hk. apply list_elem_of_singleton in Hk. subst x.
        apply list_elem_of_In in Hx. unfold mapHas in Hhas.
        destruct (mapGet (name d) (templates r)) eqn:Hg;
          [discriminate|].
        apply mapGet_None in Hg. contradiction.
      * intros key d' Hget.
        destruct (String.eqb_spec (name d) key) as [<- | Hk].
        -- rewrite mapGet_mapSet_same in Hget. injection Hget as <-. auto.
        -- rewrite mapGet_mapSet_other in Hget by exact Hk. eauto.
  - split; [constructor | discriminate].
Qed.

(** In a registry that [registerTemplate] and [clearTemplates] made
    from the initial one, no name is listed twice.  A name that is
    registered is listed, its definition carries that name, and
    [getTemplate] returns its component, never [undefined].  A name that
    is not registered is not listed, and [getTemplate] throws a
    [TemplateNotFoundError], which is not retryable; its message names
    the template and lists the registered names separated by ", ", and
    its context carries the name and that list. *)
Theorem getTemplate_reachable (r : Registry Component) (key : string) :
  Reachable r ->
  NoDup (getAvailableTemplates r)
  ∧ match getTemplateDefinition key r with
    | Some d =>
        In key (getAvailableTemplates r)
        ∧ name d = key
        ∧ ∃ c, component d = Some c ∧ getTemplate key r = Normal (Some c)
    | None =>
        ¬ In key (getAvailableTemplates r)
        ∧ ∃ error fields,
            getTemplate key r = Throw error
            ∧ isRetryableError error = false
            ∧ message error
              = Some (VString
                        ("Template " +:+ quote +:+ key +:+ quote
                           +:+ " not found. Available templates: "
                           +:+ join ", " (getAvailableTemplates r)))
            ∧ Errors.context error = Some fields
            ∧ fields !! "templateName" = Some (VString key)
            ∧ fields !! "availableTemplates"
              = Some (VArray (map VString (getAvailableTemplates r)))
    end.
Proof.
  intros Hr. destruct (Reachable_invariant r Hr) as [Hn Hd].
  split; [exact Hn|].
  unfold getTemplateDefinition, getTemplate, getAvailableTemplates.
  destruct (mapGet key (templates r)) as [d|] eqn:Hg.
  - destruct (Hd key d Hg) as (Hname & _ & Hc). split; [|split].
    + destruct (in_dec string_dec key (mapKeys (templates r)))
        as [Hin | Hout]; [exact Hin|].
      apply mapGet_None in Hout. congruence.
    + exact Hname.
    + destruct (component d) as [c|]; [eauto | contradiction].
  - split; [now apply mapGet_None|]. eexists _, _. repeat split.
Qed.

(** [registerTemplates] is not all-or-nothing: when a definition is
    rejected, those before it stay registered and those after it are
    not looked at. *)
Theorem registerTemplates_stops_at_first_bad
        (good : list (TemplateDefinition Component))
        (bad : TemplateDefinition Component)
        (rest : list (TemplateDefinition Component))
        (r : Registry Component) :
  Forall (λ d, name d <> EmptyString ∧ component d <> None) good ->
  name bad = EmptyString ∨ component bad = None ->
  ∃ e,
    registerTemplates (good ++ bad :: rest) r
    = (Throw e, snd (registerTemplates good r))
    ∧ fst (registerTemplates good r) = Normal tt.
Proof.
  intros Hgood Hbad. revert r.
  induction Hgood as [|d good [Hn Hc] _ IH]; intros r.
  - cbn. destruct (registerTemplate_rejects bad r Hbad) as (e & ->). eauto.
  - cbn. destruct (registerTemplate_accepts d r Hn Hc) as (r' & -> & _).
    apply IH.
Qed.

Lemma registerTemplates_lookup
      (definitions : list (TemplateDefinition Component))
      (r : Registry Component) :
  Forall (λ d, name d <> EmptyString ∧ component d <> None) definitions ->
  fst (registerTemplates definitions r) = Normal tt
  ∧ ∀ key,
      mapGet key (templates (snd (registerTemplates definitions r)))
      = match lastNamed key definitions with
        | Some d => Some d
        | None => mapGet key (templates r)
        end.
Proof.
  intros Hall. revert r.
  induction Hall as [|d rest [Hn Hc] _ IH]; intros r; [now split|].
  cbn [registerTemplates lastNamed].
  destruct (registerTemplate_accepts d r Hn Hc) as (r' & -> & Ht).
  destruct (IH r') as [-> IHl]. split; [reflexivity|].
  intros key. rewrite IHl, Ht.
  destruct (lastNamed key rest); [reflexivity|].
  destruct (String.eqb_spec (name d) key) as [<- | Hk].
  - apply mapGet_mapSet_same.
  - now apply mapGet_mapSet_other.
Qed.

(** Registering a list of accepted definitions: afterwards each name is
    looked up as the last definition of the list that carries it, and a
    name the list does not mention is looked up as before. *)
Theorem registerTemplates_last_wins
        (definitions : list (TemplateDefinition Component))
        (r : Registry Component) :
  Forall (λ d, name d <> EmptyString ∧ component d <> None) definitions ->
  fst (registerTemplates definitions r) = Normal tt
  ∧ ∀ key,
      getTemplateDefinition key (snd (registerTemplates definitions r))
      = match lastNamed key definitions with
        | Some d => Some d
        | None => getTemplateDefinition key r
        end.
Proof.
  exact (registerTemplates_lookup definitions r).
Qed.

Lemma registerTemplates_stops
      (good : list (TemplateDefinition Component))
      (bad : TemplateDefinition Component)
      (rest : list (TemplateDefinition Component))
      (r : Registry Component) :
  Forall (λ d, name d <> EmptyString ∧ component d <> None) good ->
  name bad = EmptyString ∨ component bad = None ->
  ∃ e,
    registerTemplates (good ++ bad :: rest) r
    = (Throw e, snd (registerTemplates good r))
    ∧ instanceofError e = true.
Proof.
  intros Hgood Hbad. revert r.
  induction Hgood as [|d good [Hn Hc] _ IH]; intros r.
  - cbn. unfold registerTemplate.
    destruct (String.eqb_spec (name bad) EmptyString) as [E | Hne];
      [eauto|].
    destruct Hbad as [H | H]; [contradiction|]. rewrite H. eauto.
  - cbn. destruct (registerTemplate_accepts d r Hn Hc) as (r' & -> & _).
    apply IH.
Qed.

End RegistryFacts.

End TemplatesFacts.

(** * Built-in and discovered templates *)

Section AutoRegistrationFacts.

Import Templates.

Section Facts.

Context {Component : Type}.
Variables WelcomeEmail NotificationEmail : Component.

Lemma templates_say l msg ctx err (r : Registry Component) :
  templates (say l msg ctx err r) = templates r.
Proof. reflexivity. Qed.

Lemma autoRegister_accepted (d : TemplateDefinition Component)
      (r : Registry Component) :
  name d <> EmptyString ->
  component d <> None ->
  templates (AutoRegistration.autoRegister d r)
  = mapSet (name d) d (templates r).
Proof.
  intros Hn Hc. unfold AutoRegistration.autoRegister.
  destruct (registerTemplate_accepts d r Hn Hc) as (r' & -> & Ht).
  exact Ht.
Qed.

Lemma autoRegisterBuiltInTemplates_templates (r : Registry Component) :
  ∀ key,
    mapGet key
      (templates (AutoRegistration.autoRegisterBuiltInTemplates
                    WelcomeEmail NotificationEmail r))
    = match AutoRegistration.builtIn WelcomeEmail NotificationEmail key with
      | Some d => Some d
      | None => mapGet key (templates r)
      end.
Proof.
  intros key.
  unfold AutoRegistration.autoRegisterBuiltInTemplates,
    AutoRegistration.builtIn, AutoRegistration.BUILT_IN_TEMPLATES.
  cbn [fold_left lastNamed]. rewrite templates_say.
  rewrite autoRegister_accepted by (cbn [name component]; congruence).
  rewrite autoRegister_accepted by (cbn [name component]; congruence).
  rewrite templates_say. cbn [name].
  destruct (String.eqb_spec "notification" key) as [<- | Hn].
  - apply mapGet_mapSet_same.
  - rewrite mapGet_mapSet_other by exact Hn.
    destruct (String.eqb_spec "welcome" key) as [<- | Hw].
    + apply mapGet_mapSet_same.
    + now apply mapGet_mapSet_other.
Qed.

(** [autoRegisterBuiltInTemplates] leaves the two built-in templates
    registered whatever the registry held before: a template registered
    earlier as "welcome" or "notification" is replaced, every other name
    is untouched. *)
Theorem autoRegisterBuiltInTemplates_replaces (r : Registry Component) :
  let r' := AutoRegistration.autoRegisterBuiltInTemplates
              WelcomeEmail NotificationEmail r in
  getTemplate "welcome" r' = Normal (Some WelcomeEmail)
  ∧ getTemplate "notification" r' = Normal (Some NotificationEmail)
  ∧ ∀ key, key <> "welcome" -> key <> "notification" ->
      getTemplateDefinition key r' = getTemplateDefinition key r.
Proof.
  cbn zeta. unfold getTemplate, getTemplateDefinition.
  rewrite !autoRegisterBuiltInTemplates_templates.
  repeat split.
  intros key Hw Hn. rewrite autoRegisterBuiltInTemplates_templates.
  unfold AutoRegistration.builtIn, AutoRegistration.BUILT_IN_TEMPLATES.
  cbn [lastNamed name].
  destruct (String.eqb_spec "notification" key); [congruence|].
  destruct (String.eqb_spec "welcome" key); [congruence|]. reflexivity.
Qed.

Lemma length_positive {A} (l : list A) :
  (0 <? Z.of_nat (length l))%Z = match l with [] => false | _ => true end.
Proof. destruct l; cbn [length]; [reflexivity|]. apply Z.ltb_lt. lia. Qed.

Lemma initializeTemplates_cases
      (options : AutoRegistration.Options Component)
      (r : Registry Component) :
  let auto := default true (AutoRegistration.autoRegisterBuiltIn options) in
  let custom := default [] (AutoRegistration.customTemplates options) in
  ∃ r1 : Registry Component,
    (∀ key,
        mapGet key (templates r1)
        = match (if auto
                 then AutoRegistration.builtIn
                        WelcomeEmail NotificationEmail key
                 else None) with
          | Some d => Some d
          | None => mapGet key (templates r)
          end)
    ∧ ∀ out r2,
        registerTemplates custom r1 = (out, r2) ->
        ∃ r3 : Registry Component,
          templates r3 = templates r2
          ∧ AutoRegistration.initializeTemplates
              WelcomeEmail NotificationEmail options r
            = (match out with
               | Normal _ => Resolved tt
               | Throw e => Rejected e
               end, r3).
Proof.
  cbn zeta. unfold AutoRegistration.initializeTemplates.
  rewrite length_positive.
  destruct (default [] (AutoRegistration.customTemplates options))
    as [|d rest] eqn:Hc.
  - eexists. split; [|intros out r2 Hreg].
    2:{ cbn [registerTemplates] in Hreg. injection Hreg as <- <-.
        eexists. split; [|reflexivity]. reflexivity. }
    intros key.
    destruct (default true (AutoRegistration.autoRegisterBuiltIn options));
      cbv beta iota; rewrite ?templates_say; [|reflexivity].
    rewrite autoRegisterBuiltInTemplates_templates. reflexivity.
  - eexists. split; [|intros out r2 Hreg; rewrite Hreg].
    2:{ destruct out; eexists; (split; [|reflexivity]); reflexivity. }
    intros key. rewrite templates_say.
    destruct (default true (AutoRegistration.autoRegisterBuiltIn options));
      cbv beta iota; rewrite ?templates_say; [|reflexivity].
    rewrite autoRegisterBuiltInTemplates_templates. reflexivity.
Qed.

(** [initializeTemplates] with custom definitions that are all
    accepted: the promise resolves, and afterwards a name is looked up
    as the last custom definition that carries it, else as the built-in
    one (unless built-ins were switched off), else as before.  So a
    custom template named like a built-in one replaces it. *)
Theorem initializeTemplates_custom_wins
        (options : AutoRegistration.Options Component)
        (r : Registry Component) :
  let auto := default true (AutoRegistration.autoRegisterBuiltIn options) in
  let custom := default [] (AutoRegistration.customTemplates options) in
  let result := AutoRegistration.initializeTemplates
                  WelcomeEmail NotificationEmail options r in
  Forall (λ d, name d <> EmptyString ∧ component d <> None) custom ->
  fst result = Resolved tt
  ∧ ∀ key,
      getTemplateDefinition key (snd result)
      = match lastNamed key custom with
        | Some d => Some d
        | None =>
            match (if auto
                   then AutoRegistration.builtIn
                          WelcomeEmail NotificationEmail key
                   else None) with
            | Some d => Some d
            | None => getTemplateDefinition key r
            end
        end.
Proof.
  cbn zeta. intros Hall.
  destruct (initializeTemplates_cases options r) as (r1 & Hr1 & Hinit).
  destruct (registerTemplates
              (default [] (AutoRegistration.customTemplates options)) r1)
    as [out r2] eqn:Hreg.
  destruct (Hinit out r2 eq_refl) as (r3 & Hr3 & ->). cbn [fst snd].
  destruct (registerTemplates_lookup _ r1 Hall) as [Hout Hlook].
  rewrite Hreg in Hout, Hlook. cbn [fst snd] in Hout, Hlook. subst out.
  split; [reflexivity|]. intros key. unfold getTemplateDefinition.
  rewrite Hr3, Hlook, Hr1. reflexivity.
Qed.

(** [initializeTemplates] with a custom definition that is refused:
    the promise rejects with the [Error] of [registerTemplate], and
    nothing is rolled back: the built-in templates and the custom
    definitions before the refused one stay registered, those after it
    are not. *)
Theorem initializeTemplates_rejects_without_rollback
        (options : AutoRegistration.Options Component)
        (good : list (TemplateDefinition Component))
        (bad : TemplateDefinition Component)
        (rest : list (TemplateDefinition Component))
        (r : Registry Component) :
  let auto := default true (AutoRegistration.autoRegisterBuiltIn options) in
  let result := AutoRegistration.initializeTemplates
                  WelcomeEmail NotificationEmail options r in
  AutoRegistration.customTemplates options = Some (good ++ bad :: rest) ->
  Forall (λ d, name d <> EmptyString ∧ component d <> None) good ->
  name bad = EmptyString ∨ component bad = None ->
  (∃ e, fst result = Rejected e ∧ instanceofError e = true)
  ∧ ∀ key,
      getTemplateDefinition key (snd result)
      = match lastNamed key good with
        | Some d => Some d
        | None =>
            match (if auto
                   then AutoRegistration.builtIn
                          WelcomeEmail NotificationEmail key
                   else None) with
            | Some d => Some d
            | None => getTemplateDefinition key r
            end
        end.
Proof.
  cbn zeta. intros Hcustom Hgood Hbad.
  destruct (initializeTemplates_cases options r) as (r1 & Hr1 & Hinit).
  rewrite Hcustom in Hinit. cbn [default from_option id] in Hinit.
  destruct (registerTemplates_stops good bad rest r1 Hgood Hbad)
    as (e & Hreg & He).
  destruct (Hinit _ _ Hreg) as (r3 & Hr3 & ->). cbn [fst snd].
  split; [eauto|]. intros key. unfold getTemplateDefinition.
  destruct (registerTemplates_lookup good r1 Hgood) as [_ Hlook].
  rewrite Hr3, Hlook, Hr1. reflexivity.
Qed.

Lemma registerDiscovered_step
      (t : AutoRegistration.DiscoveredTemplate Component)
      (counts : AutoRegistration.Registration) (r : Registry Component) :
  ∃ counts' r',
    AutoRegistration.registerDiscovered t (counts, r) = (counts', r')
    ∧ match AutoRegistration.component t with
      | Some c =>
          if negb (String.eqb (AutoRegistration.name t) EmptyString)
          then AutoRegistration.registered counts'
               = (AutoRegistration.registered counts + 1)%Z
               ∧ AutoRegistration.failed counts'
                 = AutoRegistration.failed counts
               ∧ AutoRegistration.errors counts'
                 = AutoRegistration.errors counts
               ∧ templates r'
                 = mapSet (AutoRegistration.name t)
                          (AutoRegistration.discoveredDefinition t c)
                          (templates r)
          else AutoRegistration.registered counts'
               = AutoRegistration.registered counts
               ∧ AutoRegistration.failed counts'
                 = (AutoRegistration.failed counts + 1)%Z
               ∧ (∃ err, AutoRegistration.errors counts'
                         = AutoRegistration.errors counts ++ [err]
                         ∧ instanceofError err = true)
               ∧ templates r' = templates r
      | None =>
          AutoRegistration.registered counts'
          = AutoRegistration.registered counts
          ∧ AutoRegistration.failed counts'
            = (AutoRegistration.failed counts + 1)%Z
          ∧ (∃ err, AutoRegistration.errors counts'
                    = AutoRegistration.errors counts ++ [err]
                    ∧ instanceofError err = true)
          ∧ templates r' = templates r
      end.
Proof.
  unfold AutoRegistration.registerDiscovered.
  destruct (AutoRegistration.component t) as [c|] eqn:Hc.
  - destruct (String.eqb_spec (AutoRegistration.name t) EmptyString)
      as [E | Hne]; cbn [negb].
    + unfold registerTemplate.
      cbn [name AutoRegistration.discoveredDefinition].
      rewrite E. cbn [String.eqb].
      eexists _, _. split; [reflexivity|].
      cbn [AutoRegistration.registered AutoRegistration.failed
           AutoRegistration.errors instanceofError].
      repeat split. eexists. split; reflexivity.
    + destruct (registerTemplate_accepts
                  (AutoRegistration.discoveredDefinition t c) r)
        as (r' & -> & Ht); [exact Hne | discriminate |].
      eexists _, _. split; [reflexivity|].
      cbn [AutoRegistration.registered AutoRegistration.failed
           AutoRegistration.errors].
      repeat split. exact Ht.
  - eexists _, _. split; [reflexivity|].
    cbn [AutoRegistration.registered AutoRegistration.failed
         AutoRegistration.errors instanceofError].
    repeat split. eexists. split; reflexivity.
Qed.

Lemma registerDiscovered_fold
      (ts : list (AutoRegistration.DiscoveredTemplate Component))
      (counts : AutoRegistration.Registration) (r : Registry Component) :
  ∃ counts' r',
    fold_left (fun acc t => AutoRegistration.registerDiscovered t acc)
              ts (counts, r) = (counts', r')
    ∧ AutoRegistration.registered counts'
      = (AutoRegistration.registered counts
         + Z.of_nat (length (List.filter AutoRegistration.registrable ts)))%Z
    ∧ (AutoRegistration.registered counts' + AutoRegistration.failed counts'
       = AutoRegistration.registered counts + AutoRegistration.failed counts
         + Z.of_nat (length ts))%Z
    ∧ (∃ more, AutoRegistration.errors counts'
               = AutoRegistration.errors counts ++ more
               ∧ Forall (λ e, instanceofError e = true) more
               ∧ (Z.of_nat (length more)
                  = AutoRegistration.failed counts'
                    - AutoRegistration.failed counts)%Z)
    ∧ ∀ key,
        mapGet key (templates r')
        = match AutoRegistration.lastDiscovered key ts with
          | Some d => Some d
          | None => mapGet key (templates r)
          end.
Proof.
  revert counts r. induction ts as [|t ts IH]; intros counts r.
  - eexists _, _. split; [reflexivity|]. cbn [List.filter length].
    repeat split; try lia.
    exists []. rewrite app_nil_r. repeat split; [constructor|cbn; lia].
  - cbn [fold_left].
    destruct (registerDiscovered_step t counts r) as (c1 & r1 & -> & Hstep).
    destruct (IH c1 r1) as (c2 & r2 & -> & Hreg & Hsum & Herr & Hlook).
    eexists _, _. split; [reflexivity|].
    cbn [List.filter AutoRegistration.lastDiscovered length].
    unfold AutoRegistration.registrable at 1.
    destruct Herr as (more & Hmore & Hall & Hlen).
    destruct (AutoRegistration.component t) as [c|].
    + destruct (String.eqb_spec (AutoRegistration.name t) EmptyString)
        as [E | Hne]; cbn [negb andb] in *.
      * destruct Hstep as (H1 & H2 & (err & H3 & He) & H4).
        repeat split; try lia.
        -- exists (err :: more). rewrite Hmore, H3, <- app_assoc.
           repeat split; [constructor; assumption | cbn [length]; lia].
        -- intros key. rewrite Hlook, H4.
           now destruct (AutoRegistration.lastDiscovered key ts).
      * destruct Hstep as (H1 & H2 & H3 & H4).
        repeat split; try (cbn [length]; lia).
        -- exists more. rewrite Hmore, H3.
           repeat split; [assumption | lia].
        -- intros key. rewrite Hlook, H4.
           destruct (AutoRegistration.lastDiscovered key ts);
             [reflexivity|].
           destruct (String.eqb_spec (AutoRegistration.name t) key)
             as [<- | Hk].
           ++ apply mapGet_mapSet_same.
           ++ now apply mapGet_mapSet_other.
    + destruct Hstep as (H1 & H2 & (err & H3 & He) & H4).
      repeat split; try lia.
      * exists (err :: more). rewrite Hmore, H3, <- app_assoc.
        repeat split; [constructor; assumption | cbn [length]; lia].
      * intros key. rewrite Hlook, H4.
           now destruct (AutoRegistration.lastDiscovered key ts).
Qed.

(** The counters of [registerDiscoveredTemplates]: [registered] is the
    number of templates that have a component and a non-empty name,
    [registered + failed] is the number of templates given, and
    [errors] holds one [Error] per failure. *)
Theorem registerDiscoveredTemplates_counts
        (ts : list (AutoRegistration.DiscoveredTemplate Component))
        (r : Registry Component) :
  let result := fst (AutoRegistration.registerDiscoveredTemplates ts r) in
  AutoRegistration.registered result
  = Z.of_nat (length (List.filter AutoRegistration.registrable ts))
  ∧ (AutoRegistration.registered result + AutoRegistration.failed result
     = Z.of_nat (length ts))%Z
  ∧ Z.of_nat (length (AutoRegistration.errors result))
    = AutoRegistration.failed result
  ∧ Forall (λ e, instanceofError e = true) (AutoRegistration.errors result).
Proof.
  cbn zeta. unfold AutoRegistration.registerDiscoveredTemplates.
  destruct (registerDiscovered_fold ts
              {| AutoRegistration.registered := 0;
                 AutoRegistration.failed := 0;
                 AutoRegistration.errors := [] |} r)
    as (c & r' & -> & Hreg & Hsum & (more & Hmore & Hall & Hlen) & _).
  cbn [fst AutoRegistration.registered AutoRegistration.failed
       AutoRegistration.errors] in *.
  cbn [app] in Hmore. rewrite Hmore.
  repeat split; try lia. exact Hall.
Qed.

(** [registerDiscoveredTemplates] goes on after a failure: afterwards a
    name is looked up as the definition built for the last registrable
    template that carries it, and a name no registrable template
    carries is looked up as before. *)
Theorem registerDiscoveredTemplates_registers_the_rest
        (ts : list (AutoRegistration.DiscoveredTemplate Component))
        (r : Registry Component) (key : string) :
  getTemplateDefinition key
    (snd (AutoRegistration.registerDiscoveredTemplates ts r))
  = match AutoRegistration.lastDiscovered key ts with
    | Some d => Some d
    | None => getTemplateDefinition key r
    end.
Proof.
  unfold AutoRegistration.registerDiscoveredTemplates, getTemplateDefinition.
  destruct (registerDiscovered_fold ts
              {| AutoRegistration.registered := 0;
                 AutoRegistration.failed := 0;
                 AutoRegistration.errors := [] |} r)
    as (c & r' & -> & _ & _ & _ & Hlook).
  cbn [snd]. rewrite templates_say. apply Hlook.
Qed.

End Facts.

End AutoRegistrationFacts.

(** * Worked registrations and nested retries *)

Section WorkedRegistry.

Import Scenarios Fixtures RegistryFixtures Templates.


Lemma sendWithRetry_authentication_single_use_witness :
  ∃ st env' cause ctx,
    sendWithRetry lowestDraw lowestDraw None None loginRefused silent
                  (OneRecipient "a@b.c") "Hello" "welcome" idle
    = Some (Thrown
              (VEmailError SMTPAuthenticationError
                 ("Operation failed after 1 attempts: "
                    +:+ "Operation failed after 1 attempts: "
                    +:+ "SMTP authentication failed: "
                    +:+ "Invalid login: 535")
                 cause ctx),
            st, env')
    ∧ invocations (trace env') = 1%nat
    ∧ invocations (trace (world env')) = 1%nat.
Proof.
  apply (sendWithRetry_authentication_single_use lowestDraw lowestDraw
           None None loginRefused silent (OneRecipient "a@b.c") "Hello"
           "welcome" idle (VError "Invalid login: 535")
           "Invalid login: 535" 1%nat).
  - cbn. lia.
  - cbn. lia.
  - reflexivity.
  - split; [reflexivity|]. eexists. split; [reflexivity|].
    right. left. apply TextFacts.includes_spec. reflexivity.
  - reflexivity.
Defined.

Lemma registerTemplate_then_get_witness :
  fst (registerTemplate receiptRedesigned withReceipt) = Normal tt
  ∧ getTemplateDefinition "receipt"
      (snd (registerTemplate receiptRedesigned withReceipt))
    = Some receiptRedesigned
  ∧ getTemplate "receipt"
      (snd (registerTemplate receiptRedesigned withReceipt))
    = Normal (Some "ReceiptEmailV2")
  ∧ ∀ other, other <> "receipt" ->
      getTemplateDefinition other
        (snd (registerTemplate receiptRedesigned withReceipt))
      = getTemplateDefinition other withReceipt.
Proof.
  apply (registerTemplate_then_get receiptRedesigned
           withReceipt); discriminate.
Defined.

Lemma registerTemplate_names_witness :
  getAvailableTemplates
    (snd (registerTemplate receiptRedesigned withReceipt))
  = ["receipt"]
  ∧ getAvailableTemplates (snd (registerTemplate reminder withReceipt))
    = ["receipt"; "reminder"].
Proof.
  split.
  - apply (registerTemplate_names receiptRedesigned
             withReceipt); discriminate.
  - apply (registerTemplate_names reminder withReceipt);
      discriminate.
Defined.

Lemma getTemplate_reachable_witness :
  NoDup (getAvailableTemplates withReceipt)
  ∧ In "receipt" (getAvailableTemplates withReceipt)
  ∧ name receipt = "receipt"
  ∧ ∃ c, component receipt = Some c
         ∧ getTemplate "receipt" withReceipt = Normal (Some c).
Proof.
  apply (getTemplate_reachable withReceipt "receipt").
  apply reach_register, reach_initial.
Defined.

Lemma registerTemplates_stops_at_first_bad_witness :
  ∃ e,
    registerTemplates ([receipt] ++ nameless :: [reminder]) empty
    = (Throw e, snd (registerTemplates [receipt] empty))
    ∧ fst (registerTemplates [receipt] empty) = Normal tt.
Proof.
  apply (registerTemplates_stops_at_first_bad
           [receipt] nameless [reminder] empty).
  - repeat constructor; discriminate.
  - left. reflexivity.
Defined.

Lemma registerTemplates_last_wins_witness :
  getTemplateDefinition "receipt"
    (snd (registerTemplates [receipt; reminder; receiptRedesigned] empty))
  = Some receiptRedesigned.
Proof.
  apply (registerTemplates_last_wins
           [receipt; reminder; receiptRedesigned] empty).
  repeat constructor; discriminate.
Defined.

Lemma initializeTemplates_custom_wins_witness :
  getTemplateDefinition "welcome"
    (snd (AutoRegistration.initializeTemplates
            "WelcomeEmail" "NotificationEmail"
            {| AutoRegistration.autoRegisterBuiltIn := None;
               AutoRegistration.customTemplates := Some [customWelcome] |}
            empty))
  = Some customWelcome.
Proof.
  apply (initializeTemplates_custom_wins
           "WelcomeEmail" "NotificationEmail"
           {| AutoRegistration.autoRegisterBuiltIn := None;
              AutoRegistration.customTemplates := Some [customWelcome] |}
           empty).
  repeat constructor; discriminate.
Defined.

Lemma initializeTemplates_rejects_without_rollback_witness :
  (∃ e,
      fst (AutoRegistration.initializeTemplates
             "WelcomeEmail" "NotificationEmail"
             {| AutoRegistration.autoRegisterBuiltIn := None;
                AutoRegistration.customTemplates :=
                  Some ([receipt] ++ nameless :: [reminder]) |}
             empty)
      = Rejected e ∧ instanceofError e = true)
  ∧ getTemplateDefinition "reminder"
      (snd (AutoRegistration.initializeTemplates
              "WelcomeEmail" "NotificationEmail"
              {| AutoRegistration.autoRegisterBuiltIn := None;
                 AutoRegistration.customTemplates :=
                   Some ([receipt] ++ nameless :: [reminder]) |}
              empty))
    = None.
Proof.
  destruct (initializeTemplates_rejects_without_rollback
              "WelcomeEmail" "NotificationEmail"
              {| AutoRegistration.autoRegisterBuiltIn := None;
                 AutoRegistration.customTemplates :=
                   Some ([receipt] ++ nameless :: [reminder]) |}
              [receipt] nameless [reminder] empty)
    as [Hrej Hlook].
  - reflexivity.
  - repeat constructor; discriminate.
  - left. reflexivity.
  - split; [exact Hrej | exact (Hlook "reminder")].
Defined.

End WorkedRegistry.

(** * Rendering a template that is not registered *)

Section UnknownTemplate.

Import Templates.

Context {Component W : Type}.
Variable random : nat -> Q.
Variable templateRetry : option RetryConfig.
Variable registry : Registry Component.
Variable render : option Component -> W -> Outcome string * W.
Variable templateName : string.
Variable propKeys : list string.

(** A template name that is not registered.  [renderTemplate] does not
    let the [TemplateNotFoundError] through: it rejects with a
    [TemplateRenderError] that quotes its message, after one attempt and
    without calling [render]; the [TemplateNotFoundError] is the cause
    of the cause of what is thrown. *)
Theorem renderTemplate_unknown_template (w : W) :
  (1 <= maxAttempts (default RetryConfigs.template templateRetry))%Z ->
  getTemplateDefinition templateName registry = None ->
  ∃ st env notFound ctx ctx' ctx'',
    renderTemplate random templateRetry
      (tryRenderTemplate registry render templateName)
      templateName propKeys w
    = Some (Thrown
              (VEmailError TemplateRenderError
                 ("Operation failed after 1 attempts: "
                    +:+ "Failed to render template " +:+ templateName
                    +:+ ": Template " +:+ quote +:+ templateName +:+ quote
                    +:+ " not found. Available templates: "
                    +:+ join ", " (getAvailableTemplates registry))
                 (VEmailError TemplateRenderError
                    ("Failed to render template " +:+ templateName
                       +:+ ": Template " +:+ quote +:+ templateName
                       +:+ quote
                       +:+ " not found. Available templates: "
                       +:+ join ", " (getAvailableTemplates registry))
                    (VEmailError TemplateNotFoundError notFound
                                 VUndefined ctx'')
                    ctx')
                 ctx),
            st, env)
    ∧ invocations (trace env) = 1%nat
    ∧ world env = w.
Proof.
  intros HN Hmissing.
  destruct (renderTemplate_runs_once random templateRetry
              (tryRenderTemplate registry render templateName)
              templateName propKeys w HN)
    as (exit & st & env & Hrun & Hi & _ & Hw & Hexit).
  unfold tryRenderTemplate, getTemplate in Hw, Hexit.
  unfold getTemplateDefinition in Hmissing. rewrite Hmissing in Hw, Hexit.
  cbn [fst snd] in Hw, Hexit. destruct Hexit as (ctx & ->).
  eexists st, env, _, ctx, _, _. split; [exact Hrun|]. split; assumption.
Qed.

End UnknownTemplate.

Section WorkedRendering.

Import Scenarios RegistryFixtures RenderFixtures Templates.

Lemma renderTemplate_unknown_template_witness :
  ∃ st env notFound ctx ctx' ctx'',
    renderTemplate lowestDraw None
      (tryRenderTemplate withReceipt renders "invoice")
      "invoice" ["total"] 0%nat
    = Some (Thrown
              (VEmailError TemplateRenderError
                 ("Operation failed after 1 attempts: "
                    +:+ "Failed to render template invoice"
                    +:+ ": Template " +:+ quote +:+ "invoice" +:+ quote
                    +:+ " not found. Available templates: receipt")
                 (VEmailError TemplateRenderError
                    ("Failed to render template invoice"
                       +:+ ": Template " +:+ quote +:+ "invoice" +:+ quote
                       +:+ " not found. Available templates: receipt")
                    (VEmailError TemplateNotFoundError notFound
                                 VUndefined ctx'')
                    ctx')
                 ctx),
            st, env)
    ∧ invocations (trace env) = 1%nat
    ∧ world env = 0%nat.
Proof.
  apply (renderTemplate_unknown_template lowestDraw None withReceipt renders
           "invoice" ["total"] 0%nat).
  - cbn. lia.
  - reflexivity.
Defined.

End WorkedRendering.
